(** * nlq: natural-language questions to SQLite queries

    A shallow embedding of [src/nlq.py] and the properties of its
    specification.  The Python module formats the schema of a SQLite
    database as a block of comment lines, asks two remote completion
    endpoints for a query and runs the answer on the database.

    Conventions of the embedding:
    - a Python [str] is a Rocq [string]; its characters are the code points
      below 256.  The string operations of the module only ever compare
      characters with ASCII characters (newline, space, tab, braces,
      digits), so nothing depends on the characters left out;
    - a call that can raise returns a [result];
    - the methods of the [SQlite] object run in a state monad whose state
      holds the object itself, the process-wide API key and the trace of
      the calls made to the database and to the remote endpoints. *)

From Stdlib Require Import ZArith NArith Ascii String List Lia DecimalString.
From stdpp Require Import base option list gmap strings.


(** ** Exceptions and results *)

Inductive exn : Type :=
| ValueError (msg : string)
| KeyError (key : string)
| IndexError (msg : string)
| TypeError (msg : string)
| DatabaseError (msg : string)     (* raised by the sqlite3 collaborator *)
| OpenAIError (msg : string).      (* raised by the openai collaborator *)

(** [Beyond] is the outcome of a library call on an input that this
    development does not model (see [str_format]): nothing is claimed about
    what Python does there. *)
Inductive result (A : Type) : Type :=
| Ok (a : A)
| Raise (e : exn)
| Beyond.
Arguments Ok {A} a.
Arguments Raise {A} e.
Arguments Beyond {A}.

(** ** Python strings *)

Module PyStr.

Definition nl : ascii := "010"%char.
Definition tab : ascii := "009"%char.
Definition dquote : ascii := "034"%char.

(** The one-character string holding a newline. *)
Definition NL : string := String nl "".

(** [sep.join(parts)] *)
Definition join (sep : string) (parts : list string) : string :=
  String.concat sep parts.

(** [s.split(sep)] for a one-character separator: the only separator the
    module uses is the newline. *)
Fixpoint split (sep : ascii) (s : string) : list string :=
  match s with
  | "" => [""]
  | String c rest =>
      if Ascii.eqb c sep then "" :: split sep rest
      else match split sep rest with
           | piece :: pieces => String c piece :: pieces
           | [] => [String c ""]
           end
  end.

(** [s.replace(old, new)] for a one-character [old]: the module only
    replaces the newline. *)
Fixpoint replace (old : ascii) (new : string) (s : string) : string :=
  match s with
  | "" => ""
  | String c rest =>
      if Ascii.eqb c old then new +:+ replace old new rest
      else String c (replace old new rest)
  end.

(** [s.startswith(p)] *)
Definition startswith (p s : string) : bool := String.prefix p s.

(** [sub in s] *)
Fixpoint contains (sub s : string) : bool :=
  match s with
  | "" => String.prefix sub ""
  | String _ rest => String.prefix sub s || contains sub rest
  end.

(** The lines of a text, as the module itself cuts them
    ([sql.split("\n")]). *)
Definition lines (s : string) : list string := split nl s.

(** *** [str.format] with positional string arguments

    The module calls [format] with [str] arguments only and without
    keyword arguments.  The model follows CPython's [MarkupIterator]:
    literal text with the escapes [{{] and [}}], and replacement fields
    whose name is empty (automatic numbering), a decimal index, or
    anything else (a keyword, which is missing).  A field with a
    conversion ([!]), a format specification ([:]), an attribute ([.]) or
    an index ([[]) is [Beyond]. *)

Inductive AutoNumberState := ANS_INIT | ANS_AUTO | ANS_MANUAL.

Record AutoNumber := {
  an_state : AutoNumberState;
  an_field_number : N
}.

Definition PY_SSIZE_T_MAX : N := 9223372036854775807.

Definition digit_value (c : ascii) : option N :=
  let n := N_of_ascii c in
  if ((48 <=? n) && (n <=? 57))%N then Some (n - 48)%N else None.

(** [get_integer]: [Ok None] is CPython's [-1] without an error set. *)
Fixpoint get_integer_from (accumulator : N) (s : string) : result (option N) :=
  match s with
  | "" => Ok (Some accumulator)
  | String c rest =>
      match digit_value c with
      | None => Ok None
      | Some digitval =>
          if (((PY_SSIZE_T_MAX - digitval) / 10) <? accumulator)%N
          then Raise (ValueError "Too many decimal digits in format string")
          else get_integer_from (accumulator * 10 + digitval)%N rest
      end
  end.

Definition get_integer (s : string) : result (option N) :=
  match s with
  | "" => Ok None
  | _ => get_integer_from 0%N s
  end.

Definition N_to_string (n : N) : string :=
  NilEmpty.string_of_uint (N.to_uint n).

(** What [field_name_split] makes of a field name without attribute or
    index part. *)
Inductive FieldKey := Auto | Index (i : N) | Keyword.

Definition field_key (field_name : string) (first_idx : option N) : FieldKey :=
  if String.eqb field_name "" then Auto
  else match first_idx with
       | Some i => Index i
       | None => Keyword
       end.

(** [PySequence_GetItem(args, index)] *)
Definition get_arg (args : list string) (index : N) : result string :=
  let item := if (index <? N.of_nat (length args))%N
              then nth_error args (N.to_nat index) else None in
  match item with
  | Some obj => Ok obj
  | None => Raise (IndexError ("Replacement index " +:+ N_to_string index
                               +:+ " out of range for positional args tuple"))
  end.

(** [get_field_object] with the numbering checks of [field_name_split];
    there are no keyword arguments, so a keyword is a [KeyError]. *)
Definition get_field_object (args : list string) (an : AutoNumber)
    (field_name : string) : result (string * AutoNumber) :=
  match get_integer field_name with
  | Raise e => Raise e
  | Beyond => Beyond
  | Ok first_idx =>
      match field_key field_name first_idx with
      | Keyword => Raise (KeyError field_name)
      | Auto =>
          match an_state an with
          | ANS_MANUAL =>
              Raise (ValueError
                "cannot switch from manual field specification to automatic field numbering")
          | _ =>
              match get_arg args (an_field_number an) with
              | Ok obj => Ok (obj, {| an_state := ANS_AUTO;
                                      an_field_number := (an_field_number an + 1)%N |})
              | Raise e => Raise e
              | Beyond => Beyond
              end
          end
      | Index i =>
          match an_state an with
          | ANS_AUTO =>
              Raise (ValueError
                "cannot switch from automatic field numbering to manual field specification")
          | _ =>
              match get_arg args i with
              | Ok obj => Ok (obj, {| an_state := ANS_MANUAL;
                                      an_field_number := an_field_number an |})
              | Raise e => Raise e
              | Beyond => Beyond
              end
          end
      end
  end.

Inductive Mode := Literal | Field (name : string).

Definition emit (piece : string) (r : result string) : result string :=
  match r with
  | Ok s => Ok (piece +:+ s)
  | other => other
  end.

Definition field_special (c : ascii) : bool :=
  Ascii.eqb c ":" || Ascii.eqb c "!" || Ascii.eqb c "[" || Ascii.eqb c ".".

Fixpoint do_markup (args : list string) (an : AutoNumber) (mode : Mode)
    (s : string) {struct s} : result string :=
  match mode, s with
  | Literal, "" => Ok ""
  | Literal, String c rest =>
      if Ascii.eqb c "{" then
        match rest with
        | "" => Raise (ValueError "Single '{' encountered in format string")
        | String c' rest' =>
            if Ascii.eqb c' "{" then emit "{" (do_markup args an Literal rest')
            else do_markup args an (Field "") rest
        end
      else if Ascii.eqb c "}" then
        match rest with
        | "" => Raise (ValueError "Single '}' encountered in format string")
        | String c' rest' =>
            if Ascii.eqb c' "}" then emit "}" (do_markup args an Literal rest')
            else Raise (ValueError "Single '}' encountered in format string")
        end
      else emit (String c "") (do_markup args an Literal rest)
  | Field _, "" => Raise (ValueError "expected '}' before end of string")
  | Field name, String c rest =>
      if Ascii.eqb c "{" then Raise (ValueError "unexpected '{' in field name")
      else if Ascii.eqb c "}" then
        match get_field_object args an name with
        | Ok (obj, an') => emit obj (do_markup args an' Literal rest)
        | Raise e => Raise e
        | Beyond => Beyond
        end
      else if field_special c then Beyond
      else do_markup args an (Field (name +:+ String c "")) rest
  end.

(** [s.format( *args )] *)
Definition str_format (s : string) (args : list string) : result string :=
  do_markup args {| an_state := ANS_INIT; an_field_number := 0 |} Literal s.

(** *** [textwrap.dedent]

    The implementation of CPython 3.10 to 3.13: lines made of spaces and
    tabs only become empty, the margin is the longest run of spaces and
    tabs that starts every other non-empty line, and the margin is cut
    from the lines that start with it. *)

Definition is_blank (c : ascii) : bool := Ascii.eqb c " " || Ascii.eqb c tab.

Fixpoint all_blank (l : string) : bool :=
  match l with
  | "" => true
  | String c rest => is_blank c && all_blank rest
  end.

(** The substitution of [_whitespace_only_re]: a line of one or more
    spaces and tabs and nothing else is replaced by the empty string. *)
Definition normalize_line (l : string) : string :=
  if all_blank l then "" else l.

Fixpoint leading_whitespace (l : string) : string :=
  match l with
  | "" => ""
  | String c rest => if is_blank c then String c (leading_whitespace rest) else ""
  end.

(** The matches of [_leading_whitespace_re]: the leading spaces and tabs
    of each line that has a character other than space and tab. *)
Definition indents (ls : list string) : list string :=
  map leading_whitespace (List.filter (fun l => negb (all_blank l)) ls).

(** The [for i, (x, y) in enumerate(zip(margin, indent))] loop. *)
Fixpoint cut_at_mismatch (margin indent : string) : string :=
  match margin, indent with
  | String x margin', String y indent' =>
      if Ascii.eqb x y then String x (cut_at_mismatch margin' indent') else ""
  | _, _ => margin
  end.

Definition margin_step (margin : option string) (indent : string) : option string :=
  match margin with
  | None => Some indent
  | Some m =>
      if startswith m indent then Some m
      else if startswith indent m then Some indent
      else Some (cut_at_mismatch m indent)
  end.

Fixpoint remove_prefix (p l : string) : option string :=
  match p, l with
  | "", _ => Some l
  | String a p', String b l' => if Ascii.eqb a b then remove_prefix p' l' else None
  | String _ _, "" => None
  end.

(** [re.sub(r'(?m)^' + margin, '', text)] on one line. *)
Definition strip_margin (margin l : string) : string :=
  match remove_prefix margin l with
  | Some l' => l'
  | None => l
  end.

Definition dedent (text : string) : string :=
  let ls := map normalize_line (lines text) in
  match fold_left margin_step (indents ls) None with
  | Some (String c m) => join NL (map (strip_margin (String c m)) ls)
  | _ => join NL ls
  end.

End PyStr.

(** ** The data model *)

(** The default value of a column: [int | float | str]; a float is kept as
    its 64 bits, no operation of the module looks at it. *)
Inductive DefaultValue : Type :=
| DefaultInt (z : Z)
| DefaultFloat (bits : Z)
| DefaultStr (s : string).

(** Python's truth value of an [int] and of a [str]. *)
Definition int_truth (z : Z) : bool := negb (Z.eqb z 0).
Definition str_truth (s : string) : bool := negb (String.eqb s "").

(** A row of [PRAGMA table_info], typed as [from_rows] declares it:
    [tuple[int, str, str, int, None | int | float, int]]. *)
Definition InfoRow : Type := (Z * string * string * Z * option DefaultValue * Z)%type.

Module ColumnInfo.

Record t := {
  cid : Z;
  name : string;
  type : string;
  notnull : Z;
  dflt_value : option DefaultValue;
  pk : Z
}.

Definition format (self : t) (desc : option string) : string :=
  let null := if int_truth (notnull self) then "NOTNULL" else "NULLABLE" in
  let descs :=
    match desc with
    | Some d => if str_truth d then ["description:"; d] else []
    | None => []
    end in
  PyStr.join " " ([name self; type self; null] ++ descs).

End ColumnInfo.

Module TableInfo.

Record t := { columns : list ColumnInfo.t }.

Definition format (self : t) (desc_dict : gmap string string) : string :=
  PyStr.join PyStr.NL
    (map (fun column => ColumnInfo.format column (desc_dict !! ColumnInfo.name column))
         (columns self)).

Definition from_rows (rows : list InfoRow) : t :=
  let columns :=
    map (fun row : InfoRow =>
           let '(cid, name, type, notnull, dflt_value, pk) := row in
           ColumnInfo.Build_t cid name type notnull dflt_value pk) rows in
  {| columns := columns |}.

End TableInfo.

(** ** The collaborators *)

(** A value of a result row of an arbitrary statement. *)
Inductive SqlValue : Type :=
| SqlNull
| SqlInteger (z : Z)
| SqlReal (bits : Z)
| SqlText (s : string)
| SqlBlob (b : string).

Definition Rows : Type := list (list SqlValue).

(** A cursor of [sqlite3]: what [cursor.execute(sql)] yields for a
    statement, read at the type of each call site.  The catalog query is
    iterated as [row[0]], a name; the rows of [PRAGMA table_info] are passed
    to [from_rows]; the rows of the final statement are returned as they
    are. *)
Record Cursor := {
  yields_names : string -> result (list string);
  yields_table_info : string -> result (list InfoRow);
  yields_rows : string -> result Rows
}.

(** The connection behind [sqlite3.Connection]: [conn.cursor()] gives a
    cursor, or raises (on a closed connection, or in another thread). *)
Record Connection := {
  conn_cursor : result Cursor
}.

(** What a statement yields on a cursor of the connection.  A connection
    that gives no cursor is never sent a statement: nothing is said of the
    outcome then. *)
Definition on_cursor {A : Type} (c : Connection) (f : Cursor -> result A) : result A :=
  match conn_cursor c with
  | Ok cursor => f cursor
  | _ => Beyond
  end.

Definition names_of (c : Connection) (sql : string) : result (list string) :=
  on_cursor c (fun cursor => yields_names cursor sql).

Definition table_info_of (c : Connection) (sql : string) : result (list InfoRow) :=
  on_cursor c (fun cursor => yields_table_info cursor sql).

Definition rows_of (c : Connection) (sql : string) : result Rows :=
  on_cursor c (fun cursor => yields_rows cursor sql).

(** A connection that gives cursors. *)
Definition open_connection (names : string -> result (list string))
    (table_info : string -> result (list InfoRow))
    (rows : string -> result Rows) : Connection :=
  {| conn_cursor := Ok {| yields_names := names;
                          yields_table_info := table_info;
                          yields_rows := rows |} |}.

Record ChatRequest := {
  chat_model : string;
  chat_messages : list (string * string);      (* role, content *)
  chat_args : list string;                     (* the caller's positional arguments *)
  chat_kwargs : list (string * string)         (* the caller's keyword arguments *)
}.

Record ChatChoice := { message_content : string }.
Record ChatResponse := { chat_choices : list ChatChoice }.

(** The sampling parameters are kept as the literals of the source. *)
Record CompletionRequest := {
  model : string;
  prompt : string;
  temperature : string;
  max_tokens : Z;
  top_p : string;
  frequency_penalty : string;
  presence_penalty : string;
  stop : list string
}.

Record CompletionChoice := { text : string }.
Record CompletionResponse := { choices : list CompletionChoice }.

(** The process around the object: the environment variables and the two
    endpoints of the [openai] package. *)
Record World := {
  os_environ : gmap string string;
  ChatCompletion_create : ChatRequest -> result ChatResponse;
  Completion_create : CompletionRequest -> result CompletionResponse
}.

(** What the object does to its collaborators, in order. *)
Inductive event : Type :=
| DbExecute (sql : string)
| ChatCall (req : ChatRequest)
| CompletionCall (req : CompletionRequest).

(** ** The top-level object *)

Module SQlite.

Record t := {
  conn : Connection;
  column_descriptions : option (gmap string (gmap string string));
  api_key : option string
}.

(** The state the methods run in: the object, the module attribute
    [openai.api_key] and the calls made so far. *)
Record State := {
  self : t;
  openai_api_key : option string;
  trace : list event
}.

Definition M (A : Type) : Type := State -> result A * State.

#[export] Instance M_ret : MRet M := fun A (a : A) st => (Ok a, st).

#[export] Instance M_bind : MBind M := fun A B (f : A -> M B) (m : M A) st =>
  match m st with
  | (Ok a, st') => f a st'
  | (Raise e, st') => (Raise e, st')
  | (Beyond, st') => (Beyond, st')
  end.

Definition lift {A} (r : result A) : M A := fun st => (r, st).

Definition get_self : M t := fun st => (Ok (self st), st).

Definition log (ev : event) : M unit := fun st =>
  (Ok tt, {| self := self st; openai_api_key := openai_api_key st;
             trace := trace st ++ [ev] |}).

Definition set_openai_api_key (key : option string) : M unit := fun st =>
  (Ok tt, {| self := self st; openai_api_key := key; trace := trace st |}).

(** [for x in xs: body], threading the local variable the body updates. *)
Fixpoint for_each {A S : Type} (xs : list A) (body : S -> A -> M S) (s : S) : M S :=
  match xs with
  | [] => mret s
  | x :: xs' => s' ← body s x; for_each xs' body s'
  end.

(** [a or b] on optional strings. *)
Definition or_str (a b : option string) : option string :=
  match a with
  | Some s => if str_truth s then Some s else b
  | None => b
  end.

(** [res["choices"][0]] *)
Definition first_choice {A} (l : list A) : result A :=
  match l with
  | c :: _ => Ok c
  | [] => Raise (IndexError "list index out of range")
  end.

Definition sp12 : string := "            ".

Definition catalog_query : string :=
  "SELECT name FROM sqlite_master WHERE type = "
    +:+ String PyStr.dquote ("table" +:+ String PyStr.dquote "").

Definition system_message : string :=
  "You are helpful assistant that translates Any Language to SQL".

(** A keyword argument of the caller that repeats one written in the
    call makes the call a [TypeError] (CPython's message starts with the
    name of the callee). *)
Definition repeated_keyword (kwargs : list (string * string)) : option string :=
  fst <$> List.find (fun kv => String.eqb (fst kv) "model" || String.eqb (fst kv) "messages")
                    kwargs.

Definition chat_request (user_content : string) (args : list string)
    (kwargs : list (string * string)) : ChatRequest :=
  {| chat_model := "gpt-3.5-turbo-0301";
     chat_messages := [("system", system_message); ("user", user_content)];
     chat_args := args;
     chat_kwargs := kwargs |}.

Definition completion_request (p : string) : CompletionRequest :=
  {| model := "code-davinci-002";
     prompt := p +:+ PyStr.NL +:+ PyStr.NL +:+ "SELECT *";
     temperature := "0";
     max_tokens := 150;
     top_p := "1.0";
     frequency_penalty := "0.0";
     presence_penalty := "0.0";
     stop := ["#"; ";"] |}.

Section methods.

Variable world : World.

Definition __post_init__ : M unit :=
  self ← get_self;
  let api_key := or_str (api_key self) (os_environ world !! "OPENAI_API_KEY") in
  set_openai_api_key api_key.

(** [self.conn.cursor()] *)
Definition get_cursor : M Cursor :=
  self ← get_self; lift (conn_cursor (conn self)).

Definition execute_names (cursor : Cursor) (sql : string) : M (list string) :=
  _ ← log (DbExecute sql); lift (yields_names cursor sql).

Definition execute_table_info (cursor : Cursor) (sql : string) : M (list InfoRow) :=
  _ ← log (DbExecute sql); lift (yields_table_info cursor sql).

Definition execute_rows (cursor : Cursor) (sql : string) : M Rows :=
  _ ← log (DbExecute sql); lift (yields_rows cursor sql).

Definition table_names : M (list string) :=
  let q := catalog_query in
  cursor ← get_cursor;
  execute_names cursor q.

Definition descriptions : M (gmap string (gmap string string)) :=
  self ← get_self;
  mret (match column_descriptions self with
        | Some d => if decide (d = ∅) then ∅ else d
        | None => ∅
        end).

Definition format_tables_info : M string :=
  let q := "PRAGMA table_info({})" in
  cursor ← get_cursor;
  names ← table_names;
  info_list ← for_each names (fun info_list table_name =>
    let info_list := info_list ++ [""] in
    let info_list := info_list ++ ["TABLE_NAME: " +:+ table_name] in
    sql ← lift (PyStr.str_format q [table_name]);
    rows ← execute_table_info cursor sql;
    let info := TableInfo.from_rows rows in
    descs ← descriptions;
    let info_list :=
      info_list ++ [TableInfo.format info (default ∅ (descs !! table_name))] in
    mret (info_list ++ [""])) [];
  mret (PyStr.replace PyStr.nl (PyStr.NL +:+ "# ") (PyStr.join PyStr.NL info_list)).

Definition make_prompt (query : string) : M string :=
  q ← lift (PyStr.str_format query [PyStr.NL; PyStr.NL +:+ "# "]);
  tables_info ← format_tables_info;
  mret (PyStr.dedent
          (PyStr.NL +:+ sp12 +:+ tables_info +:+ PyStr.NL
           +:+ sp12 +:+ "# " +:+ q +:+ PyStr.NL
           +:+ sp12 +:+ "SELECT *" +:+ PyStr.NL
           +:+ sp12)).

Definition _translate (sql : string) : M string :=
  let lines := PyStr.split PyStr.nl sql in
  let lines := lines ++ [""] in
  let lines := lines ++ ["The above SQL can be rewritten as follows in SQLite"] in
  let prompt := PyStr.join PyStr.NL (map (fun line => "# " +:+ line) lines) in
  let req := completion_request prompt in
  _ ← log (CompletionCall req);
  res ← lift (Completion_create world req);
  choice ← lift (first_choice (choices res));
  mret ("SELECT *" +:+ PyStr.NL +:+ text choice).

Definition _build_query (query : string) (args : list string)
    (kwargs : list (string * string)) : M string :=
  user_content ← make_prompt query;
  match repeated_keyword kwargs with
  | Some k =>
      lift (Raise (TypeError ("got multiple values for keyword argument '" +:+ k +:+ "'")))
  | None =>
      let req := chat_request user_content args kwargs in
      _ ← log (ChatCall req);
      res ← lift (ChatCompletion_create world req);
      choice ← lift (first_choice (chat_choices res));
      mret ("SELECT *" +:+ message_content choice)
  end.

Definition build_query (query : string) (args : list string)
    (kwargs : list (string * string)) : M string :=
  q ← _build_query query args kwargs;
  _translate q.

Definition execute (query : string) (args : list string)
    (kwargs : list (string * string)) : M Rows :=
  cursor ← get_cursor;
  sql ← build_query query args kwargs;
  execute_rows cursor sql.

(** The dataclass constructor: the fields are stored, then
    [__post_init__] runs. *)
Definition new (conn : Connection)
    (column_descriptions : option (gmap string (gmap string string)))
    (api_key : option string) (openai_api_key0 : option string) : State :=
  snd (__post_init__
         {| self := {| conn := conn; column_descriptions := column_descriptions;
                       api_key := api_key |};
            openai_api_key := openai_api_key0;
            trace := [] |}).

End methods.

End SQlite.

(** ** Definitions used to state the properties *)

(** A string without a newline. *)
Definition single_line (s : string) : Prop := PyStr.contains PyStr.NL s = false.

(** A string without braces: [str.format] has nothing to replace in it. *)
Fixpoint brace_free (s : string) : bool :=
  match s with
  | "" => true
  | String c rest =>
      negb (Ascii.eqb c "{") && negb (Ascii.eqb c "}") && brace_free rest
  end.

(** The line of a column as the specification writes it, without the
    description: [<name> <type> <NOTNULL|NULLABLE>]. *)
Definition column_line (c : ColumnInfo.t) : string :=
  ColumnInfo.name c +:+ " " +:+ ColumnInfo.type c +:+ " "
    +:+ (if int_truth (ColumnInfo.notnull c) then "NOTNULL" else "NULLABLE").

(** A column whose name, type and description (the one the map has for
    it) are free of newlines. *)
Definition plain_column (desc_dict : gmap string string) (c : ColumnInfo.t) : Prop :=
  single_line (ColumnInfo.name c) /\ single_line (ColumnInfo.type c)
  /\ forall d, desc_dict !! ColumnInfo.name c = Some d -> single_line d.

(** The statement [format_tables_info] sends for a table. *)
Definition pragma_query (table_name : string) : string :=
  "PRAGMA table_info(" +:+ table_name +:+ ")".

(** The statements that read the schema. *)
Definition is_introspection (ev : event) : Prop :=
  ev = DbExecute SQlite.catalog_query \/ exists t, ev = DbExecute (pragma_query t).

(** The events that are statements sent to the database. *)
Definition statement (ev : event) : bool :=
  match ev with
  | DbExecute _ => true
  | _ => false
  end.

(** The description map a method sees ([self.descriptions()]). *)
Definition descriptions_of (self : SQlite.t) : gmap string (gmap string string) :=
  match SQlite.column_descriptions self with
  | Some d => if decide (d = ∅) then ∅ else d
  | None => ∅
  end.

(** The four entries one table adds to [info_list]. *)
Definition table_block (descs : gmap string (gmap string string))
    (table_name : string) (rows : list InfoRow) : list string :=
  [""; "TABLE_NAME: " +:+ table_name;
   TableInfo.format (TableInfo.from_rows rows) (default ∅ (descs !! table_name)); ""].

(** The state after some more events. *)
Definition after (st : SQlite.State) (evs : list event) : SQlite.State :=
  {| SQlite.self := SQlite.self st;
     SQlite.openai_api_key := SQlite.openai_api_key st;
     SQlite.trace := SQlite.trace st ++ evs |}.

(** A computation leaves the object and the API key as they are and adds
    to the trace only events that satisfy [P]. *)
Definition emits {A : Type} (P : event -> Prop) (m : SQlite.M A) : Prop :=
  forall st, exists evs, snd (m st) = after st evs /\ Forall P evs.

(** The request [_translate] sends for a draft query. *)
Definition translation_request (sql : string) : CompletionRequest :=
  SQlite.completion_request
    (PyStr.join PyStr.NL
       (map (fun line => "# " +:+ line)
            ((PyStr.split PyStr.nl sql ++ [""])
               ++ ["The above SQL can be rewritten as follows in SQLite"]))).

(** The fields of a column, in the order of the constructor. *)
Definition row_of (c : ColumnInfo.t) : InfoRow :=
  (ColumnInfo.cid c, ColumnInfo.name c, ColumnInfo.type c, ColumnInfo.notnull c,
   ColumnInfo.dflt_value c, ColumnInfo.pk c).

Section loop_body.

Import SQlite.

(** The body of the loop of [format_tables_info]. *)
Definition table_step (cursor : Cursor) (info_list : list string)
    (table_name : string) : SQlite.M (list string) :=
  let info_list := info_list ++ [""] in
  let info_list := info_list ++ ["TABLE_NAME: " +:+ table_name] in
  sql ← SQlite.lift (PyStr.str_format "PRAGMA table_info({})" [table_name]);
  rows ← SQlite.execute_table_info cursor sql;
  let info := TableInfo.from_rows rows in
  descs ← SQlite.descriptions;
  let info_list :=
    info_list ++ [TableInfo.format info (default ∅ (descs !! table_name))] in
  mret (info_list ++ [""]).

End loop_body.

(** ** Stub collaborators *)

Module Stub.

(** The table [users(id INTEGER PRIMARY KEY, name TEXT)]; the not-null
    flag of [id] is left open (SQLite reports 0 for it). *)
Definition users_rows (id_notnull : Z) : list InfoRow :=
  [(0%Z, "id", "INTEGER", id_notnull, None, 1%Z);
   (1%Z, "name", "TEXT", 0%Z, None, 0%Z)].

Definition users_db (id_notnull : Z) : Connection :=
  open_connection
    (fun sql =>
       if String.eqb sql SQlite.catalog_query then Ok ["users"]
       else Raise (DatabaseError "not the catalog query"))
    (fun sql =>
       if String.eqb sql (pragma_query "users") then Ok (users_rows id_notnull)
       else Ok [])
    (fun _ => Ok []).

(** A database without tables. *)
Definition empty_db : Connection :=
  open_connection (fun _ => Ok []) (fun _ => Ok []) (fun _ => Ok []).

(** Endpoints that answer every request with one choice. *)
Definition answering (chat_content completion_text : string) : World :=
  {| os_environ := ∅;
     ChatCompletion_create := fun _ =>
       Ok {| chat_choices := [ {| message_content := chat_content |} ] |};
     Completion_create := fun _ =>
       Ok {| choices := [ {| text := completion_text |} ] |} |}.

(** Endpoints that fail. *)
Definition unreachable : World :=
  {| os_environ := ∅;
     ChatCompletion_create := fun _ => Raise (OpenAIError "connection refused");
     Completion_create := fun _ => Raise (OpenAIError "connection refused") |}.

(** The chat endpoint answers, the completion endpoint fails. *)
Definition half_reachable : World :=
  {| os_environ := ∅;
     ChatCompletion_create := fun _ =>
       Ok {| chat_choices := [ {| message_content := " id FROM users" |} ] |};
     Completion_create := fun _ => Raise (OpenAIError "rate limit") |}.

Definition state_of (w : World) (db : Connection) : SQlite.State :=
  SQlite.new w db None None None.

(** The object on the [users] table as SQLite reports it, with
    endpoints that fail. *)
Definition users_state : SQlite.State := state_of unreachable (users_db 0).

Definition question : string := "how many users are there".

Definition two_line_question : string := "first" +:+ PyStr.NL +:+ "second".

(** A database that cannot be read. *)
Definition broken_db : Connection :=
  open_connection
    (fun _ => Raise (DatabaseError "database is locked"))
    (fun _ => Raise (DatabaseError "database is locked"))
    (fun _ => Raise (DatabaseError "database is locked")).

(** Three tables; the second cannot be described. *)
Definition half_broken_db : Connection :=
  open_connection
    (fun _ => Ok ["users"; "orders"; "items"])
    (fun sql =>
       if String.eqb sql (pragma_query "orders")
       then Raise (DatabaseError "disk I/O error")
       else Ok (users_rows 1))
    (fun _ => Ok []).

(** The [users] database; every statement other than the two that read
    the schema yields one row. *)
Definition counting_db : Connection :=
  open_connection (names_of (users_db 0)) (table_info_of (users_db 0))
                  (fun _ => Ok [[SqlInteger 3]]).

(** A connection that was closed: it gives no cursor. *)
Definition closed_db : Connection :=
  {| conn_cursor := Raise (DatabaseError "Cannot operate on a closed database.") |}.

(** A chat endpoint that answers without a choice. *)
Definition no_choice : World :=
  {| os_environ := ∅;
     ChatCompletion_create := fun _ => Ok {| chat_choices := [] |};
     Completion_create := fun _ => Ok {| choices := [ {| text := "" |} ] |} |}.

(** A process with the key in its environment. *)
Definition with_environment_key : World :=
  {| os_environ := {[ "OPENAI_API_KEY" := "sk-env" ]};
     ChatCompletion_create := ChatCompletion_create unreachable;
     Completion_create := Completion_create unreachable |}.

(** One column, described on two lines. *)
Definition note_table : TableInfo.t :=
  TableInfo.from_rows [(0%Z, "note", "TEXT", 0%Z, None, 0%Z)].

Definition note_descriptions : gmap string string :=
  {[ "note" := "free text" +:+ PyStr.NL +:+ "may be long" ]}.

End Stub.

(** ** Facts about strings *)

Section string_facts.

Import PyStr.

Lemma append_cons (c : ascii) (a b : string) : String c a +:+ b = String c (a +:+ b).
Proof. reflexivity. Qed.

Lemma append_nil_r (s : string) : s +:+ "" = s.
Proof. induction s as [|c s IH]; [reflexivity | now rewrite append_cons, IH]. Qed.

Lemma append_assoc (a b c : string) : (a +:+ b) +:+ c = a +:+ (b +:+ c).
Proof. induction a as [|x a IH]; [reflexivity | now rewrite !append_cons, IH]. Qed.

Lemma split_cons_nl (s : string) : split nl (String nl s) = "" :: split nl s.
Proof. reflexivity. Qed.

Lemma split_not_nil (sep : ascii) (s : string) : split sep s <> [].
Proof.
  induction s as [|c s IH]; cbn; [discriminate |].
  destruct (Ascii.eqb c sep); [discriminate |].
  destruct (split sep s); discriminate.
Qed.

Lemma split_cons_other (c : ascii) (s : string) :
  Ascii.eqb c nl = false ->
  split nl (String c s) =
    match split nl s with
    | piece :: pieces => String c piece :: pieces
    | [] => [String c ""]
    end.
Proof. intros H. cbn. now rewrite H. Qed.

(** Cutting a text at a newline cuts its list of lines. *)
Lemma split_app_nl (a b : string) :
  split nl (a +:+ NL +:+ b) = split nl a ++ split nl b.
Proof.
  induction a as [|c a IH].
  - reflexivity.
  - rewrite append_cons. cbn [split]. destruct (Ascii.eqb c nl).
    + cbn. now rewrite IH.
    + rewrite IH. pose proof (split_not_nil nl a) as Hne.
      destruct (split nl a); [contradiction | reflexivity].
Qed.

(** [replace] puts the marker after every newline: every line but the
    first gets it. *)
Lemma lines_replace (s : string) :
  lines (replace nl (NL +:+ "# ") s) =
    match lines s with
    | first :: others => first :: map (fun l => "# " +:+ l) others
    | [] => []
    end.
Proof.
  unfold lines. induction s as [|c s IH]; [reflexivity |].
  pose proof (split_not_nil nl s) as Hne.
  cbn [replace]. destruct (Ascii.eqb c nl) eqn:Hc.
  - apply Ascii.eqb_eq in Hc as ->.
    change ((NL +:+ "# ") +:+ replace nl (NL +:+ "# ") s)
      with (String nl (String "#" (String " " (replace nl (NL +:+ "# ") s)))).
    rewrite !split_cons_nl. f_equal.
    rewrite !split_cons_other by reflexivity. rewrite IH.
    destruct (split nl s); [contradiction | reflexivity].
  - rewrite !split_cons_other by exact Hc. rewrite IH.
    destruct (split nl s); [contradiction | reflexivity].
Qed.

Lemma startswith_marker (l : string) : startswith "# " ("# " +:+ l) = true.
Proof. unfold startswith. destruct l; reflexivity. Qed.

Lemma join_cons2 (sep x y : string) (l : list string) :
  join sep (x :: y :: l) = x +:+ sep +:+ join sep (y :: l).
Proof. reflexivity. Qed.

Lemma single_line_cons (c : ascii) (s : string) :
  single_line (String c s) <-> Ascii.eqb c nl = false /\ single_line s.
Proof.
  unfold single_line. cbn [contains NL String.prefix].
  destruct (ascii_dec nl c) as [<-|Hne].
  - cbn. destruct s; cbn; split; intros H; try discriminate; destruct H; discriminate.
  - cbn. split.
    + intros H. split; [| exact H]. apply Ascii.eqb_neq. congruence.
    + intros [_ H]. exact H.
Qed.

Lemma single_line_app (a b : string) :
  single_line a -> single_line b -> single_line (a +:+ b).
Proof.
  induction a as [|c a IH]; intros Ha Hb; [exact Hb |].
  rewrite append_cons. apply single_line_cons.
  apply single_line_cons in Ha as [Hc Ha]. auto.
Qed.

(** A text without a newline is one line. *)
Lemma lines_single_line (s : string) : single_line s -> lines s = [s].
Proof.
  unfold lines. induction s as [|c s IH]; intros H; [reflexivity |].
  apply single_line_cons in H as [Hc H].
  rewrite split_cons_other by exact Hc. now rewrite IH.
Qed.

Lemma lines_join (parts : list string) :
  parts <> [] -> Forall single_line parts -> lines (join NL parts) = parts.
Proof.
  induction parts as [|x [|y l] IH]; intros Hne Hall.
  - contradiction.
  - apply lines_single_line. now inversion Hall.
  - rewrite join_cons2. unfold lines. rewrite split_app_nl.
    inversion Hall as [|? ? Hx Hrest]; subst.
    fold (lines x). rewrite (lines_single_line x Hx).
    fold (lines (join NL (y :: l))). rewrite IH; [reflexivity | discriminate | exact Hrest].
Qed.

(** The template of [format_tables_info] has one automatic field. *)
Lemma str_format_pragma (table_name : string) :
  str_format "PRAGMA table_info({})" [table_name] = Ok (pragma_query table_name).
Proof. reflexivity. Qed.

(** On a string without braces [format] is the identity, whatever the
    arguments. *)
Lemma str_format_plain (s : string) (args : list string) :
  brace_free s = true -> str_format s args = Ok s.
Proof.
  unfold str_format. generalize {| an_state := ANS_INIT; an_field_number := 0 |}.
  induction s as [|c s IH]; intros an H; [reflexivity |].
  cbn [brace_free] in H. apply andb_prop in H as [H Hs]. apply andb_prop in H as [Ho Hc].
  cbn [do_markup].
  destruct (Ascii.eqb c "{"); [discriminate |].
  destruct (Ascii.eqb c "}"); [discriminate |].
  now rewrite (IH an Hs).
Qed.

End string_facts.

(** ** Columns and tables *)

Section formatting.

Import PyStr.

Lemma append_not_empty (a b : string) (c : ascii) : a +:+ String c b <> "".
Proof. destruct a; discriminate. Qed.

Lemma append_longer (a b : string) (c : ascii) : a +:+ String c b <> a.
Proof.
  induction a as [|x a IH]; [discriminate |].
  rewrite append_cons. intros H. injection H as H. now apply IH.
Qed.

Lemma column_format_plain (c : ColumnInfo.t) (d : option string) :
  d = None \/ d = Some "" -> ColumnInfo.format c d = column_line c.
Proof. intros [-> | ->]; reflexivity. Qed.

Lemma column_format_described (c : ColumnInfo.t) (x : string) :
  x <> "" ->
  ColumnInfo.format c (Some x) = column_line c +:+ " " +:+ "description: " +:+ x.
Proof.
  intros Hx. unfold ColumnInfo.format, column_line, str_truth.
  destruct (String.eqb_spec x "") as [|_]; [contradiction |].
  cbn [negb app join String.concat].
  rewrite !append_assoc. reflexivity.
Qed.

Lemma column_format_not_empty (c : ColumnInfo.t) (d : option string) :
  ColumnInfo.format c d <> "".
Proof.
  unfold ColumnInfo.format.
  destruct d as [x|]; [destruct (str_truth x) |]; cbn [app join String.concat];
    destruct (ColumnInfo.name c); discriminate.
Qed.

Lemma column_format_single_line (c : ColumnInfo.t) (d : option string) :
  single_line (ColumnInfo.name c) -> single_line (ColumnInfo.type c) ->
  (forall x, d = Some x -> single_line x) ->
  single_line (ColumnInfo.format c d).
Proof.
  intros Hn Ht Hd. unfold ColumnInfo.format.
  assert (Hnull : single_line
            (if int_truth (ColumnInfo.notnull c) then "NOTNULL" else "NULLABLE"))
    by (destruct (int_truth _); reflexivity).
  destruct d as [x|]; [destruct (str_truth x) |]; cbn [app join String.concat];
    repeat (apply single_line_app; [try assumption; try reflexivity |]);
    try assumption; try reflexivity.
  now apply Hd.
Qed.

End formatting.

(** ** Running the methods *)

Section running.

Import PyStr SQlite.

Lemma run_bind {A B : Type} (m : M A) (f : A -> M B) (st : State) :
  (m ≫= f) st =
    match m st with
    | (Ok a, st') => f a st'
    | (Raise e, st') => (Raise e, st')
    | (Beyond, st') => (Beyond, st')
    end.
Proof. reflexivity. Qed.

Lemma after_nil (st : State) : after st [] = st.
Proof. destruct st. unfold after. cbn. now rewrite app_nil_r. Qed.

Lemma after_after (st : State) (evs evs' : list event) :
  after (after st evs) evs' = after st (evs ++ evs').
Proof. unfold after. cbn. now rewrite app_assoc. Qed.

Lemma emits_ret {A} (P : event -> Prop) (a : A) : emits P (mret a).
Proof. intros st. exists []. now rewrite after_nil. Qed.

Lemma emits_lift {A} (P : event -> Prop) (r : result A) : emits P (lift r).
Proof. intros st. exists []. now rewrite after_nil. Qed.

Lemma emits_get_self (P : event -> Prop) : emits P get_self.
Proof. intros st. exists []. now rewrite after_nil. Qed.

Lemma emits_log (P : event -> Prop) (ev : event) : P ev -> emits P (log ev).
Proof. intros H st. exists [ev]. split; [reflexivity | auto]. Qed.

Lemma emits_bind {A B} (P : event -> Prop) (m : M A) (f : A -> M B) :
  emits P m -> (forall a, emits P (f a)) -> emits P (m ≫= f).
Proof.
  intros Hm Hf st. rewrite run_bind. specialize (Hm st).
  destruct (m st) as [[a | e |] st']; cbn [snd] in Hm; [| exact Hm | exact Hm].
  destruct Hm as (evs & -> & Hall).
  destruct (Hf a (after st evs)) as (evs' & Hst & Hall').
  exists (evs ++ evs'). split.
  - now rewrite Hst, after_after.
  - apply Forall_app. auto.
Qed.

Lemma emits_weaken {A} (P Q : event -> Prop) (m : M A) :
  (forall ev, P ev -> Q ev) -> emits P m -> emits Q m.
Proof.
  intros HPQ Hm st. destruct (Hm st) as (evs & Hst & Hall).
  exists evs. split; [exact Hst |]. eapply Forall_impl; eauto.
Qed.

Lemma emits_for_each {A S} (P : event -> Prop) (xs : list A) (body : S -> A -> M S) :
  (forall s x, emits P (body s x)) -> forall s, emits P (for_each xs body s).
Proof.
  intros Hbody. induction xs as [|x xs IH]; intros s; cbn [for_each].
  - apply emits_ret.
  - apply emits_bind; auto.
Qed.

Lemma bind_lift_ok {A B} (a : A) (f : A -> M B) : lift (Ok a) ≫= f = f a.
Proof. reflexivity. Qed.

Ltac emits_step :=
  first [ apply emits_bind; [| intros ?]
        | apply emits_for_each; intros ? ?
        | apply emits_ret | apply emits_lift | apply emits_get_self
        | apply emits_log ].

Lemma emits_get_cursor (P : event -> Prop) : emits P get_cursor.
Proof. unfold get_cursor. repeat emits_step. Qed.

Lemma emits_descriptions (P : event -> Prop) : emits P descriptions.
Proof. unfold descriptions. repeat emits_step. Qed.

Lemma emits_table_names : emits is_introspection table_names.
Proof.
  unfold table_names, execute_names.
  apply emits_bind; [apply emits_get_cursor | intros cursor].
  repeat emits_step. now left.
Qed.

Lemma emits_format_tables_info : emits is_introspection format_tables_info.
Proof.
  unfold format_tables_info.
  apply emits_bind; [apply emits_get_cursor | intros cursor].
  apply emits_bind; [apply emits_table_names | intros names].
  apply emits_bind; [| intros; apply emits_ret].
  apply emits_for_each. intros info_list table_name.
  rewrite str_format_pragma, bind_lift_ok.
  apply emits_bind.
  - unfold execute_table_info. repeat emits_step. right. now exists table_name.
  - intros rows. apply emits_bind; [apply emits_descriptions | intros; apply emits_ret].
Qed.

Lemma emits_make_prompt (query : string) : emits is_introspection (make_prompt query).
Proof.
  unfold make_prompt.
  apply emits_bind; [apply emits_lift | intros q].
  apply emits_bind; [apply emits_format_tables_info | intros; apply emits_ret].
Qed.

(** A statement that yields something was sent on a cursor. *)
Lemma on_cursor_inv {A} (c : Connection) (f : Cursor -> result A) (r : result A) :
  on_cursor c f = r -> r <> Beyond ->
  exists cursor, conn_cursor c = Ok cursor /\ f cursor = r.
Proof.
  unfold on_cursor. intros H Hr.
  destruct (conn_cursor c) as [cursor | e |]; [eauto | congruence | congruence].
Qed.

Lemma on_cursor_open {A} (c : Connection) (f : Cursor -> result A) (cursor : Cursor) :
  conn_cursor c = Ok cursor -> on_cursor c f = f cursor.
Proof. unfold on_cursor. now intros ->. Qed.

Lemma get_cursor_run (st : State) :
  get_cursor st = (conn_cursor (conn (self st)), st).
Proof. reflexivity. Qed.

Lemma table_names_run (st : State) (cursor : Cursor) :
  conn_cursor (conn (self st)) = Ok cursor ->
  table_names st = (yields_names cursor catalog_query, after st [DbExecute catalog_query]).
Proof.
  intros Hcursor. unfold table_names. rewrite run_bind, get_cursor_run, Hcursor.
  reflexivity.
Qed.

Lemma format_tables_info_loop :
  format_tables_info =
    (cursor ← get_cursor;
     names ← table_names;
     info_list ← for_each names (table_step cursor) [];
     mret (replace nl (NL +:+ "# ") (join NL info_list))).
Proof. reflexivity. Qed.

Lemma for_each_app {A S} (xs ys : list A) (body : S -> A -> M S) (s : S) (st : State) :
  for_each (xs ++ ys) body s st = (s' ← for_each xs body s; for_each ys body s') st.
Proof.
  revert s st. induction xs as [|x xs IH]; intros s st; [reflexivity |].
  cbn [app for_each]. rewrite !run_bind.
  destruct (body s x st) as [[s' | e |] st']; [| reflexivity | reflexivity].
  rewrite IH. now rewrite run_bind.
Qed.

(** One turn of the loop. *)
Lemma table_step_run (cursor : Cursor) (acc : list string) (t : string) (st : State) :
  table_step cursor acc t st =
    (match yields_table_info cursor (pragma_query t) with
     | Ok rows => Ok (acc ++ table_block (descriptions_of (self st)) t rows)
     | Raise e => Raise e
     | Beyond => Beyond
     end,
     after st [DbExecute (pragma_query t)]).
Proof.
  unfold table_step. rewrite str_format_pragma.
  cbv [execute_table_info descriptions get_self log lift mbind M_bind mret M_ret].
  destruct (yields_table_info cursor (pragma_query t)); try reflexivity.
  cbn [self]. unfold table_block, descriptions_of, after.
  do 2 f_equal. now rewrite <- !app_assoc.
Qed.

Lemma table_loop_run (cursor : Cursor) (schema : string -> list InfoRow)
    (names : list string) :
  (forall t, In t names -> yields_table_info cursor (pragma_query t) = Ok (schema t)) ->
  forall acc st,
    for_each names (table_step cursor) acc st =
      (Ok (acc ++ concat (map (fun t => table_block (descriptions_of (self st)) t (schema t))
                              names)),
       after st (map (fun t => DbExecute (pragma_query t)) names)).
Proof.
  induction names as [|t names IH]; intros Hinfo acc st.
  - cbn. now rewrite app_nil_r, after_nil.
  - cbn [for_each]. rewrite run_bind, table_step_run, (Hinfo t) by (now left).
    rewrite IH by (intros; apply Hinfo; now right).
    cbn [map concat]. rewrite after_after. cbn [self after]. now rewrite <- app_assoc.
Qed.

(** What [format_tables_info] returns and sends when the database
    answers: the catalog query with [names], the query for the table [t]
    with [schema t]. *)
Lemma format_tables_info_run (st : State) (names : list string)
    (schema : string -> list InfoRow) :
  names_of (conn (self st)) catalog_query = Ok names ->
  (forall t, In t names ->
             table_info_of (conn (self st)) (pragma_query t) = Ok (schema t)) ->
  format_tables_info st =
    (Ok (replace nl (NL +:+ "# ")
           (join NL (concat (map (fun t => table_block (descriptions_of (self st)) t (schema t))
                                 names)))),
     after st (DbExecute catalog_query :: map (fun t => DbExecute (pragma_query t)) names)).
Proof.
  intros Hnames Hinfo.
  destruct (on_cursor_inv _ _ _ Hnames) as (cursor & Hcursor & Hnames'); [discriminate |].
  assert (Hinfo' : forall t, In t names ->
                     yields_table_info cursor (pragma_query t) = Ok (schema t)).
  { intros t Ht. specialize (Hinfo t Ht). unfold table_info_of in Hinfo.
    now rewrite (on_cursor_open _ _ cursor Hcursor) in Hinfo. }
  rewrite format_tables_info_loop, run_bind, get_cursor_run, Hcursor.
  rewrite run_bind, (table_names_run st cursor Hcursor), Hnames'.
  rewrite run_bind, (table_loop_run cursor schema names Hinfo').
  now rewrite after_after.
Qed.

(** A prompt is only made on a connection that gives cursors. *)
Lemma make_prompt_cursor (query p : string) (st st1 : State) :
  make_prompt query st = (Ok p, st1) ->
  exists cursor, conn_cursor (conn (self st)) = Ok cursor.
Proof.
  unfold make_prompt. rewrite run_bind. unfold lift at 1.
  destruct (str_format query [NL; NL +:+ "# "]) as [q | e |]; try discriminate.
  rewrite run_bind, format_tables_info_loop, run_bind, get_cursor_run.
  destruct (conn_cursor (conn (self st))) as [cursor | e |];
    [eauto | discriminate | discriminate].
Qed.

End running.

(** ** The column line and the table block *)

Section column_and_table.

Import PyStr.

(** C5.  For every column, [format(None)] is the line
    [<name> <type> <NOTNULL|NULLABLE>] without a description; for every
    non-empty description [x], [format(x)] is that line followed by
    [description: x], so it ends with [description: x]; and the result is
    the bare line exactly when no description or the empty one is given. *)
Theorem column_format_description (c : ColumnInfo.t) :
  ColumnInfo.format c None = column_line c
  /\ (forall x, x <> "" ->
        ColumnInfo.format c (Some x) = (column_line c +:+ " ") +:+ ("description: " +:+ x))
  /\ (forall d, ColumnInfo.format c d = column_line c <-> d = None \/ d = Some "").
Proof.
  split; [reflexivity | split].
  - intros x Hx. rewrite (column_format_described c x Hx). now rewrite append_assoc.
  - intros d. split; [| apply column_format_plain].
    destruct d as [x|]; [| now left]. intros H. right. f_equal.
    destruct (String.eqb_spec x "") as [Hx | Hx]; [exact Hx |].
    rewrite (column_format_described c x Hx) in H.
    exfalso. exact (append_longer (column_line c) _ _ H).
Qed.

Lemma column_format_description_witness :
  "free text" <> ""
  /\ ColumnInfo.format (ColumnInfo.Build_t 0 "note" "TEXT" 0 None 0) (Some "free text")
     = "note TEXT NULLABLE description: free text".
Proof.
  split; [discriminate |].
  exact (proj1 (proj2 (column_format_description
                         (ColumnInfo.Build_t 0 "note" "TEXT" 0 None 0)))
               "free text" ltac:(discriminate)).
Defined.

Lemma table_format_not_empty (t : TableInfo.t) (desc_dict : gmap string string) :
  TableInfo.columns t <> [] -> TableInfo.format t desc_dict <> "".
Proof.
  unfold TableInfo.format. destruct (TableInfo.columns t) as [|c [|c' l]]; intros Hne.
  - contradiction.
  - cbn [map join String.concat]. apply column_format_not_empty.
  - cbn [map]. rewrite join_cons2. intros H.
    destruct (ColumnInfo.format c (desc_dict !! ColumnInfo.name c)) eqn:Hc;
      [exact (column_format_not_empty _ _ Hc) | discriminate].
Qed.

(** C6, as the code has it.  For every table and every description
    map: the result is not empty when the table has a column; and when
    the table has a column and no name, type or looked-up description
    holds a newline, the lines of the result are the formatted columns,
    one line per column, in column order. *)
Theorem table_format_lines (t : TableInfo.t) (desc_dict : gmap string string) :
  TableInfo.columns t <> [] ->
  TableInfo.format t desc_dict <> ""
  /\ (Forall (plain_column desc_dict) (TableInfo.columns t) ->
      lines (TableInfo.format t desc_dict)
      = map (fun c => ColumnInfo.format c (desc_dict !! ColumnInfo.name c))
            (TableInfo.columns t)).
Proof.
  intros Hne. split; [now apply table_format_not_empty |].
  intros Hplain. unfold TableInfo.format. apply lines_join.
  - destruct (TableInfo.columns t); [contradiction | discriminate].
  - apply Forall_map. eapply Forall_impl; [exact Hplain |].
    intros c (Hn & Ht & Hd). now apply column_format_single_line.
Qed.

Lemma table_format_lines_witness :
  TableInfo.format (TableInfo.from_rows (Stub.users_rows 1)) ∅ <> ""
  /\ lines (TableInfo.format (TableInfo.from_rows (Stub.users_rows 1)) ∅)
     = ["id INTEGER NOTNULL"; "name TEXT NULLABLE"].
Proof.
  destruct (table_format_lines (TableInfo.from_rows (Stub.users_rows 1)) ∅) as [H1 H2].
  - discriminate.
  - split; [exact H1 |]. apply H2.
    repeat constructor; intros d Hd; discriminate Hd.
Defined.

(** C6 as stated fails when a description has a newline: the table has
    one column, its block has two lines. *)
Lemma table_format_description_newline :
  TableInfo.columns Stub.note_table
  = [ColumnInfo.Build_t 0 "note" "TEXT" 0 None 0]
  /\ lines (TableInfo.format Stub.note_table Stub.note_descriptions)
     = ["note TEXT NULLABLE description: free text"; "may be long"]
  /\ length (lines (TableInfo.format Stub.note_table Stub.note_descriptions))
     <> length (TableInfo.columns Stub.note_table).
Proof. split; [| split]; vm_compute; [reflexivity | reflexivity | discriminate]. Qed.

End column_and_table.

(** ** The schema block *)

Section schema_block.

Import PyStr SQlite.

(** The joined [info_list] starts with an empty line. *)
Lemma lines_blocks (descs : gmap string (gmap string string))
    (schema : string -> list InfoRow) (names : list string) :
  exists others,
    lines (join NL (concat (map (fun t => table_block descs t (schema t)) names)))
    = "" :: others.
Proof.
  destruct names as [|t names].
  - exists []. reflexivity.
  - cbn [map concat]. unfold table_block at 1. cbn [app].
    rewrite join_cons2. unfold lines. rewrite split_app_nl.
    eexists. reflexivity.
Qed.

(** C1, as the code has it.  For every schema the database reports
    (the table names and the rows of every table), whatever the
    description map, [format_tables_info] returns a text whose first line
    is empty and whose every other line, the blank separator lines
    included, starts with the comment marker. *)
Theorem format_tables_info_lines (st : State) (names : list string)
    (schema : string -> list InfoRow) :
  names_of (conn (self st)) catalog_query = Ok names ->
  (forall t, In t names ->
             table_info_of (conn (self st)) (pragma_query t) = Ok (schema t)) ->
  exists s others,
    fst (format_tables_info st) = Ok s
    /\ lines s = "" :: others
    /\ Forall (fun l => startswith "# " l = true) others.
Proof.
  intros Hnames Hinfo.
  rewrite (format_tables_info_run st names schema Hnames Hinfo). cbn [fst].
  destruct (lines_blocks (descriptions_of (self st)) schema names) as [others Hlines].
  eexists. exists (map (fun l => "# " +:+ l) others).
  split; [reflexivity | split].
  - rewrite lines_replace, Hlines. reflexivity.
  - apply Forall_map. apply Forall_forall. intros l _. apply startswith_marker.
Qed.

Lemma format_tables_info_lines_witness :
  exists s others,
    fst (format_tables_info (Stub.state_of Stub.unreachable (Stub.users_db 0))) = Ok s
    /\ lines s = "" :: others
    /\ Forall (fun l => startswith "# " l = true) others.
Proof.
  apply (format_tables_info_lines
           (Stub.state_of Stub.unreachable (Stub.users_db 0))
           ["users"] (fun _ => Stub.users_rows 0)).
  - reflexivity.
  - intros t [<- | []]. reflexivity.
Defined.

(** C1 as stated fails on the first line, which never has the marker. *)
Lemma format_tables_info_first_line :
  exists s,
    fst (format_tables_info (Stub.state_of Stub.unreachable (Stub.users_db 0))) = Ok s
    /\ ~ Forall (fun l => startswith "# " l = true) (lines s).
Proof.
  eexists. split; [vm_compute; reflexivity |].
  intros H. inversion H as [|l ls Hl _]. discriminate Hl.
Qed.

(** C4, as the code has it.  For a database that reports the one table
    [users] with the columns [id INTEGER] and [name TEXT] and no
    descriptions, the block has the lines [# id INTEGER NOTNULL] and
    [# name TEXT NULLABLE] when the not-null flag of [id] is set and that
    of [name] is not, whatever the primary-key flags are. *)
Theorem users_table_lines (st : State) (cid1 nn1 pk1 cid2 pk2 : Z)
    (d1 d2 : option DefaultValue) :
  names_of (conn (self st)) catalog_query = Ok ["users"] ->
  table_info_of (conn (self st)) (pragma_query "users")
    = Ok [(cid1, "id", "INTEGER", nn1, d1, pk1); (cid2, "name", "TEXT", 0%Z, d2, pk2)] ->
  descriptions_of (self st) = ∅ ->
  nn1 <> 0%Z ->
  exists s,
    fst (format_tables_info st) = Ok s
    /\ s = join NL [""; "# TABLE_NAME: users"; "# id INTEGER NOTNULL";
                    "# name TEXT NULLABLE"; "# "]
    /\ In "# id INTEGER NOTNULL" (lines s) /\ In "# name TEXT NULLABLE" (lines s)
    /\ contains "id INTEGER NOTNULL" s = true /\ contains "name TEXT NULLABLE" s = true.
Proof.
  intros Hnames Hinfo Hdescs Hnn.
  rewrite (format_tables_info_run st ["users"]
             (fun _ => [(cid1, "id", "INTEGER", nn1, d1, pk1);
                        (cid2, "name", "TEXT", 0%Z, d2, pk2)]) Hnames)
    by (intros t [<- | []]; exact Hinfo).
  rewrite Hdescs. cbn [fst map concat app].
  unfold table_block, TableInfo.format, TableInfo.from_rows, ColumnInfo.format.
  cbn [map TableInfo.columns ColumnInfo.name ColumnInfo.type ColumnInfo.notnull].
  rewrite !lookup_empty. cbn [default app].
  unfold int_truth. destruct (Z.eqb_spec nn1 0) as [|_]; [contradiction |].
  eexists. split; [reflexivity |].
  repeat split; vm_compute; auto 10.
Qed.

Lemma users_table_lines_witness :
  exists s,
    fst (format_tables_info (Stub.state_of Stub.unreachable (Stub.users_db 1))) = Ok s
    /\ s = join NL [""; "# TABLE_NAME: users"; "# id INTEGER NOTNULL";
                    "# name TEXT NULLABLE"; "# "]
    /\ In "# id INTEGER NOTNULL" (lines s) /\ In "# name TEXT NULLABLE" (lines s)
    /\ contains "id INTEGER NOTNULL" s = true /\ contains "name TEXT NULLABLE" s = true.
Proof.
  apply (users_table_lines (Stub.state_of Stub.unreachable (Stub.users_db 1))
           0 1 1 1 0 None None).
  - reflexivity.
  - reflexivity.
  - reflexivity.
  - discriminate.
Defined.

(** C4 as stated fails for the table as SQLite reports it: [id] is the
    primary key and its not-null flag is 0, so its line says NULLABLE. *)
Lemma users_table_primary_key_nullable :
  exists s,
    fst (format_tables_info (Stub.state_of Stub.unreachable (Stub.users_db 0))) = Ok s
    /\ s = join NL [""; "# TABLE_NAME: users"; "# id INTEGER NULLABLE";
                    "# name TEXT NULLABLE"; "# "]
    /\ contains "id INTEGER NOTNULL" s = false.
Proof. eexists. repeat split; vm_compute; reflexivity. Qed.

End schema_block.

(** ** The prompt and the two remote calls *)

Section prompt_and_calls.

Import PyStr SQlite.

Variable world : World.

Lemma emits_any {A} (P : event -> Prop) (m : M A) : emits P m -> emits (fun _ => True) m.
Proof. apply emits_weaken. auto. Qed.

Ltac emits_any_step :=
  first [ apply emits_bind; [| intros ?]
        | apply emits_ret | apply emits_lift | apply emits_get_self
        | apply emits_log; exact I ].

Lemma emits_translate (sql : string) : emits (fun _ => True) (_translate world sql).
Proof. unfold _translate. repeat emits_any_step. Qed.

Lemma emits_build_query_1 (query : string) (args : list string)
    (kwargs : list (string * string)) :
  emits (fun _ => True) (_build_query world query args kwargs).
Proof.
  unfold _build_query.
  apply emits_bind; [apply (emits_any _ _ (emits_make_prompt query)) | intros p].
  destruct (repeated_keyword kwargs); repeat emits_any_step.
Qed.

Lemma emits_build_query (query : string) (args : list string)
    (kwargs : list (string * string)) :
  emits (fun _ => True) (build_query world query args kwargs).
Proof.
  unfold build_query.
  apply emits_bind; [apply emits_build_query_1 | intros q; apply emits_translate].
Qed.

Lemma emits_execute (query : string) (args : list string)
    (kwargs : list (string * string)) :
  emits (fun _ => True) (execute world query args kwargs).
Proof.
  unfold execute, execute_rows.
  apply emits_bind; [apply emits_get_cursor | intros cursor].
  apply emits_bind; [apply emits_build_query | intros sql].
  repeat emits_any_step.
Qed.

Lemma emits_self {A} (P : event -> Prop) (m : M A) (st : State) :
  emits P m -> self (snd (m st)) = self st.
Proof. intros H. destruct (H st) as (evs & -> & _). reflexivity. Qed.

(** C9.  The description map is the one given to the constructor, and
    no operation of the object changes it: after [table_names],
    [descriptions], [format_tables_info], [make_prompt], [build_query]
    and [execute], whatever they return or raise, the field
    [column_descriptions] is what it was before. *)
Theorem column_descriptions_never_mutated :
  (forall conn cd key key0,
      column_descriptions (self (new world conn cd key key0)) = cd)
  /\ (forall st query args kwargs,
        let unchanged (st' : State) :=
          column_descriptions (self st') = column_descriptions (self st) in
        unchanged (snd (table_names st))
        /\ unchanged (snd (descriptions st))
        /\ unchanged (snd (format_tables_info st))
        /\ unchanged (snd (make_prompt query st))
        /\ unchanged (snd (build_query world query args kwargs st))
        /\ unchanged (snd (execute world query args kwargs st))).
Proof.
  split; [reflexivity |].
  intros st query args kwargs unchanged. unfold unchanged.
  repeat split; f_equal;
    first [ apply (emits_self _ _ _ emits_table_names)
          | apply (emits_self _ _ _ (emits_descriptions (fun _ => True)))
          | apply (emits_self _ _ _ emits_format_tables_info)
          | apply (emits_self _ _ _ (emits_make_prompt query))
          | apply (emits_self _ _ _ (emits_build_query query args kwargs))
          | apply (emits_self _ _ _ (emits_execute query args kwargs)) ].
Qed.

(** What [_translate] returns and sends. *)
Lemma translate_run (sql : string) (st : State) :
  _translate world sql st =
    (match Completion_create world (translation_request sql) with
     | Ok res =>
         match first_choice (choices res) with
         | Ok choice => Ok ("SELECT *" +:+ NL +:+ text choice)
         | Raise e => Raise e
         | Beyond => Beyond
         end
     | Raise e => Raise e
     | Beyond => Beyond
     end,
     after st [CompletionCall (translation_request sql)]).
Proof.
  unfold _translate. cbv [log lift mbind M_bind mret M_ret].
  fold (translation_request sql).
  destruct (Completion_create world (translation_request sql)) as [res | e |];
    [destruct (first_choice (choices res)) |..]; reflexivity.
Qed.

(** What [_build_query] returns and sends once the prompt is made. *)
Lemma build_query_1_run (query p : string) (args : list string)
    (kwargs : list (string * string)) (st st1 : State) :
  make_prompt query st = (Ok p, st1) ->
  repeated_keyword kwargs = None ->
  _build_query world query args kwargs st =
    (match ChatCompletion_create world (chat_request p args kwargs) with
     | Ok res =>
         match first_choice (chat_choices res) with
         | Ok choice => Ok ("SELECT *" +:+ message_content choice)
         | Raise e => Raise e
         | Beyond => Beyond
         end
     | Raise e => Raise e
     | Beyond => Beyond
     end,
     after st1 [ChatCall (chat_request p args kwargs)]).
Proof.
  intros Hprompt Hkw. unfold _build_query. rewrite run_bind, Hprompt, Hkw.
  cbv [log lift mbind M_bind mret M_ret].
  destruct (ChatCompletion_create world (chat_request p args kwargs)) as [res | e |];
    [destruct (first_choice (chat_choices res)) |..]; reflexivity.
Qed.

(** C7.  For every message content the chat endpoint answers the
    request of [_build_query] with, [_build_query] returns the literal
    [SELECT *] followed by that content, after that one call.  So for the
    content [ SELECT id FROM users] it returns
    [SELECT * SELECT id FROM users]: the content is appended to the
    literal, it does not take its place. *)
Theorem build_query_stub_concatenates (query p content : string) (args : list string)
    (kwargs : list (string * string)) (st st1 : State)
    (res : ChatResponse) (others : list ChatChoice) :
  make_prompt query st = (Ok p, st1) ->
  repeated_keyword kwargs = None ->
  ChatCompletion_create world (chat_request p args kwargs) = Ok res ->
  chat_choices res = {| message_content := content |} :: others ->
  _build_query world query args kwargs st
  = (Ok ("SELECT *" +:+ content), after st1 [ChatCall (chat_request p args kwargs)])
  /\ (content = " SELECT id FROM users" ->
      fst (_build_query world query args kwargs st) = Ok "SELECT * SELECT id FROM users").
Proof.
  intros Hprompt Hkw Hres Hchoices.
  assert (Hrun : _build_query world query args kwargs st
                 = (Ok ("SELECT *" +:+ content),
                    after st1 [ChatCall (chat_request p args kwargs)])).
  { rewrite (build_query_1_run query p args kwargs st st1 Hprompt Hkw), Hres, Hchoices.
    reflexivity. }
  split; [exact Hrun |].
  intros ->. now rewrite Hrun.
Qed.

(** C8.  For every text [t] the completion endpoint answers the request
    of [_translate] with, [_translate] returns [SELECT *], a newline and
    [t] as it is. *)
Theorem translate_prefixes_select (sql t : string) (st : State)
    (res : CompletionResponse) (others : list CompletionChoice) :
  Completion_create world (translation_request sql) = Ok res ->
  choices res = {| text := t |} :: others ->
  fst (_translate world sql st) = Ok ("SELECT *" +:+ NL +:+ t).
Proof.
  intros Hres Hchoices. rewrite translate_run, Hres, Hchoices. reflexivity.
Qed.

(** C3, as the code has it.  When the prompt is made and the first
    remote call raises, or the first answers and the second raises,
    [execute] raises that same error.  The statements sent to the
    database are the ones that read the schema for the prompt, all sent
    before the first remote call; nothing is sent after it, so the
    generated query is not run.  Each endpoint is called at most once. *)
Theorem execute_remote_failure (query p : string) (args : list string)
    (kwargs : list (string * string)) (st st1 : State) (e : exn) :
  make_prompt query st = (Ok p, st1) ->
  repeated_keyword kwargs = None ->
  (ChatCompletion_create world (chat_request p args kwargs) = Raise e
   \/ exists res c others,
        ChatCompletion_create world (chat_request p args kwargs) = Ok res
        /\ chat_choices res = c :: others
        /\ Completion_create world (translation_request ("SELECT *" +:+ message_content c))
           = Raise e) ->
  exists reads calls,
    execute world query args kwargs st = (Raise e, after st (reads ++ calls))
    /\ st1 = after st reads
    /\ Forall is_introspection reads
    /\ (calls = [ChatCall (chat_request p args kwargs)]
        \/ exists c,
             calls = [ChatCall (chat_request p args kwargs);
                      CompletionCall
                        (translation_request ("SELECT *" +:+ message_content c))]).
Proof.
  intros Hprompt Hkw Hfail.
  destruct (emits_make_prompt query st) as (reads & Hst1 & Hreads).
  rewrite Hprompt in Hst1. cbn [snd] in Hst1. subst st1.
  destruct (make_prompt_cursor _ _ _ _ Hprompt) as [cursor Hcursor].
  exists reads. unfold execute, build_query. rewrite run_bind.
  rewrite get_cursor_run, Hcursor.
  rewrite !run_bind.
  rewrite (build_query_1_run query p args kwargs st _ Hprompt Hkw).
  destruct Hfail as [Hchat | (res & c & others & Hchat & Hchoices & Hcompletion)].
  - rewrite Hchat, after_after.
    exists [ChatCall (chat_request p args kwargs)].
    repeat split; [exact Hreads | now left].
  - rewrite Hchat, Hchoices. cbn [first_choice]. rewrite translate_run, Hcompletion.
    rewrite !after_after.
    exists [ChatCall (chat_request p args kwargs);
            CompletionCall (translation_request ("SELECT *" +:+ message_content c))].
    repeat split; [exact Hreads | right; now exists c].
Qed.

End prompt_and_calls.

(** ** The claims on stub collaborators *)

Section on_stubs.

Import PyStr SQlite.

Lemma build_query_stub_concatenates_witness :
  fst (_build_query (Stub.answering " SELECT id FROM users" "") Stub.question [] []
         (Stub.state_of (Stub.answering " SELECT id FROM users" "") (Stub.users_db 0)))
  = Ok "SELECT * SELECT id FROM users".
Proof.
  edestruct build_query_stub_concatenates
    with (world := Stub.answering " SELECT id FROM users" "")
         (query := Stub.question) (content := " SELECT id FROM users")
         (args := @nil string) (kwargs := @nil (string * string))
         (st := Stub.state_of (Stub.answering " SELECT id FROM users" "") (Stub.users_db 0))
    as [_ Hstub].
  - vm_compute. reflexivity.
  - reflexivity.
  - reflexivity.
  - reflexivity.
  - apply Hstub. reflexivity.
Defined.

Lemma translate_prefixes_select_witness :
  fst (_translate (Stub.answering "" (" WHERE name='a'" +:+ NL))
         "SELECT * FROM users" Stub.users_state)
  = Ok ("SELECT *" +:+ NL +:+ " WHERE name='a'" +:+ NL).
Proof.
  eapply translate_prefixes_select
    with (world := Stub.answering "" (" WHERE name='a'" +:+ NL)).
  - reflexivity.
  - reflexivity.
Defined.

Lemma execute_remote_failure_witness :
  exists reads calls,
    execute Stub.half_reachable Stub.question [] []
            (Stub.state_of Stub.half_reachable (Stub.users_db 0))
    = (Raise (OpenAIError "rate limit"),
       after (Stub.state_of Stub.half_reachable (Stub.users_db 0)) (reads ++ calls))
    /\ Forall is_introspection reads.
Proof.
  edestruct execute_remote_failure
    with (world := Stub.half_reachable) (query := Stub.question)
         (args := @nil string) (kwargs := @nil (string * string))
         (st := Stub.state_of Stub.half_reachable (Stub.users_db 0))
    as (reads & calls & Hrun & _ & Hreads & _).
  - vm_compute. reflexivity.
  - reflexivity.
  - right. do 3 eexists. split; [reflexivity | split; reflexivity].
  - exists reads, calls. split; [exact Hrun | exact Hreads].
Defined.

(** C3 as stated fails: the first remote call raises, and two statements
    have been run on the database by then. *)
Lemma execute_reads_schema_before_failure :
  fst (execute Stub.unreachable Stub.question [] [] Stub.users_state)
  = Raise (OpenAIError "connection refused")
  /\ trace Stub.users_state = []
  /\ List.filter statement
            (trace (snd (execute Stub.unreachable Stub.question [] [] Stub.users_state)))
     = [DbExecute catalog_query; DbExecute (pragma_query "users")].
Proof. repeat split; vm_compute; reflexivity. Qed.

(** C2 fails on a question of two lines: its second line has no comment
    marker, and beside a schema block the last lines keep the
    indentation of the source. *)
Theorem make_prompt_second_line_unmarked :
  fst (make_prompt Stub.two_line_question Stub.users_state)
  = Ok (join NL [""; "";
                 "# TABLE_NAME: users";
                 "# id INTEGER NULLABLE";
                 "# name TEXT NULLABLE";
                 "# ";
                 "            # first";
                 "second";
                 "            SELECT *";
                 ""]).
Proof. vm_compute. reflexivity. Qed.

(** Without tables and with a question of one line, [dedent] finds the
    indentation of the source on every line and removes it. *)
Example make_prompt_no_tables :
  fst (make_prompt Stub.question (Stub.state_of Stub.unreachable Stub.empty_db))
  = Ok (join NL [""; ""; "# how many users are there"; "SELECT *"; ""]).
Proof. vm_compute. reflexivity. Qed.

(** C10.  [make_prompt] passes the question to [str.format] with the
    arguments newline and newline-marker before anything else: a lone
    brace raises [ValueError], a named field raises [KeyError], both
    before the database is asked anything; and the question [{0}] is
    replaced by a newline, so that it gives the prompt of the question
    that is a single newline. *)
Theorem make_prompt_format_hazard :
  (forall st,
      make_prompt "{" st
      = (Raise (ValueError "Single '{' encountered in format string"), st))
  /\ (forall st, make_prompt "{name}" st = (Raise (KeyError "name"), st))
  /\ str_format "{0}" [NL; NL +:+ "# "] = Ok NL
  /\ (forall st, make_prompt "{0}" st = make_prompt NL st)
  /\ fst (make_prompt "{0}" (Stub.state_of Stub.unreachable Stub.empty_db))
     = Ok (join NL [""; ""; "# "; ""; "SELECT *"; ""]).
Proof.
  repeat split; reflexivity.
Qed.

End on_stubs.

(** ** More on columns and tables *)

Section more_formatting.

Import PyStr.

Lemma join_app (sep : string) (a b : list string) :
  a <> [] -> b <> [] -> join sep (a ++ b) = join sep a +:+ sep +:+ join sep b.
Proof.
  intros Ha Hb. induction a as [|x [|y a] IH]; [contradiction | |].
  - destruct b as [|z b]; [contradiction | reflexivity].
  - change ((x :: y :: a) ++ b) with (x :: (y :: a) ++ b).
    change ((y :: a) ++ b) with (y :: a ++ b) at 1.
    rewrite !join_cons2. change (y :: a ++ b) with ((y :: a) ++ b).
    rewrite IH by discriminate. now rewrite !append_assoc.
Qed.



(** X2.  [from_rows] makes one column per row, in the order of the rows,
    and loses nothing: the fields of the columns are the rows again. *)
Theorem from_rows_round_trip (rows : list InfoRow) :
  map row_of (TableInfo.columns (TableInfo.from_rows rows)) = rows
  /\ length (TableInfo.columns (TableInfo.from_rows rows)) = length rows.
Proof.
  unfold TableInfo.from_rows. cbn [TableInfo.columns]. split.
  - induction rows as [|[[[[[cid name] type] notnull] dflt] pk] rows IH];
      [reflexivity |].
    cbn [map]. now rewrite IH.
  - apply length_map.
Qed.

Lemma table_format_ext (t : TableInfo.t) (d1 d2 : gmap string string) :
  (forall c, In c (TableInfo.columns t) ->
             d1 !! ColumnInfo.name c = d2 !! ColumnInfo.name c) ->
  TableInfo.format t d1 = TableInfo.format t d2.
Proof.
  intros H. unfold TableInfo.format. f_equal.
  apply map_ext_in. intros c Hc. now rewrite (H c Hc).
Qed.

(** X3.  A table reads the description map only at the names of its
    columns: two maps that agree there give the same block, so
    descriptions of other names are ignored. *)
Theorem table_format_reads (t : TableInfo.t) (d1 d2 : gmap string string) :
  (forall c, In c (TableInfo.columns t) ->
             d1 !! ColumnInfo.name c = d2 !! ColumnInfo.name c) ->
  TableInfo.format t d1 = TableInfo.format t d2.
Proof. apply table_format_ext. Qed.

Lemma table_format_reads_witness :
  TableInfo.format (TableInfo.from_rows (Stub.users_rows 1)) {[ "email" := "the address" ]}
  = TableInfo.format (TableInfo.from_rows (Stub.users_rows 1)) ∅.
Proof.
  apply (table_format_reads (TableInfo.from_rows (Stub.users_rows 1))
           {[ "email" := "the address" ]} ∅).
  intros c [<- | [<- | []]]; reflexivity.
Defined.

(** X4.  The block of the rows [r1 ++ r2], both non-empty, is the block
    of [r1], a newline and the block of [r2]. *)
Theorem table_format_app (r1 r2 : list InfoRow) (desc_dict : gmap string string) :
  r1 <> [] -> r2 <> [] ->
  TableInfo.format (TableInfo.from_rows (r1 ++ r2)) desc_dict
  = TableInfo.format (TableInfo.from_rows r1) desc_dict +:+ NL
      +:+ TableInfo.format (TableInfo.from_rows r2) desc_dict.
Proof.
  intros H1 H2. unfold TableInfo.format, TableInfo.from_rows. cbn [TableInfo.columns].
  rewrite !map_app. apply join_app.
  - destruct r1; [contradiction | discriminate].
  - destruct r2; [contradiction | discriminate].
Qed.

Lemma table_format_app_witness :
  TableInfo.format (TableInfo.from_rows (Stub.users_rows 1 ++ Stub.users_rows 0)) ∅
  = TableInfo.format (TableInfo.from_rows (Stub.users_rows 1)) ∅ +:+ NL
      +:+ TableInfo.format (TableInfo.from_rows (Stub.users_rows 0)) ∅.
Proof.
  apply (table_format_app (Stub.users_rows 1) (Stub.users_rows 0) ∅); discriminate.
Defined.

End more_formatting.

(** ** More on the schema block *)

Section more_schema_block.

Import PyStr SQlite.

(** X5.  [format_tables_info] keeps nothing between calls: when the
    database answers, a call sends the catalog query and one
    [PRAGMA table_info] per reported table, in the order of the catalog,
    and a second call sends the same statements again and returns the
    same text. *)
Theorem format_tables_info_requeries (st : State) (names : list string)
    (schema : string -> list InfoRow) :
  names_of (conn (self st)) catalog_query = Ok names ->
  (forall t, In t names ->
             table_info_of (conn (self st)) (pragma_query t) = Ok (schema t)) ->
  let sent := DbExecute catalog_query :: map (fun t => DbExecute (pragma_query t)) names in
  exists s,
    format_tables_info st = (Ok s, after st sent)
    /\ format_tables_info (after st sent) = (Ok s, after st (sent ++ sent)).
Proof.
  intros Hnames Hinfo sent. eexists. split.
  - apply (format_tables_info_run st names schema Hnames Hinfo).
  - rewrite (format_tables_info_run (after st sent) names schema Hnames Hinfo).
    now rewrite after_after.
Qed.

Lemma format_tables_info_requeries_witness :
  exists s,
    format_tables_info Stub.users_state
    = (Ok s, after Stub.users_state
               [DbExecute catalog_query; DbExecute (pragma_query "users")])
    /\ format_tables_info
         (after Stub.users_state [DbExecute catalog_query; DbExecute (pragma_query "users")])
       = (Ok s, after Stub.users_state
                  ([DbExecute catalog_query; DbExecute (pragma_query "users")]
                   ++ [DbExecute catalog_query; DbExecute (pragma_query "users")])).
Proof.
  apply (format_tables_info_requeries Stub.users_state ["users"]
           (fun _ => Stub.users_rows 0)).
  - reflexivity.
  - intros t [<- | []]. reflexivity.
Defined.

Lemma replace_app (a b new : string) :
  replace nl new (a +:+ b) = replace nl new a +:+ replace nl new b.
Proof.
  induction a as [|c a IH]; [reflexivity |].
  rewrite append_cons. cbn [replace]. rewrite IH.
  destruct (Ascii.eqb c nl); [now rewrite append_assoc | reflexivity].
Qed.

(** X6.  Without tables the schema block is the empty string; with a
    table it starts with a newline and the marked line of the first
    table name. *)
Theorem format_tables_info_start (st : State) (names : list string)
    (schema : string -> list InfoRow) :
  names_of (conn (self st)) catalog_query = Ok names ->
  (forall t, In t names ->
             table_info_of (conn (self st)) (pragma_query t) = Ok (schema t)) ->
  exists s,
    fst (format_tables_info st) = Ok s
    /\ match names with
       | [] => s = ""
       | first :: _ =>
           exists tail,
           s = NL +:+ "# TABLE_NAME: " +:+ replace nl (NL +:+ "# ") first +:+ NL +:+ "# " +:+ tail
       end.
Proof.
  intros Hnames Hinfo.
  rewrite (format_tables_info_run st names schema Hnames Hinfo). cbn [fst].
  eexists. split; [reflexivity |].
  destruct names as [|t names]; [reflexivity |].
  cbn [map concat]. unfold table_block at 1. cbn [app].
  rewrite !join_cons2, !replace_app.
  eexists. reflexivity.
Qed.

Lemma format_tables_info_start_witness :
  exists s,
    fst (format_tables_info Stub.users_state) = Ok s
    /\ exists tail,
         s = NL +:+ "# TABLE_NAME: " +:+ replace nl (NL +:+ "# ") "users" +:+ NL +:+ "# " +:+ tail.
Proof.
  apply (format_tables_info_start Stub.users_state ["users"] (fun _ => Stub.users_rows 0)).
  - reflexivity.
  - intros t [<- | []]. reflexivity.
Defined.

(** X7.  When the database fails on the description of a table,
    [format_tables_info] raises that error at once: the tables before it
    have been asked for, the tables after it are not. *)
Theorem format_tables_info_table_failure (st : State) (before later : list string)
    (t : string) (schema : string -> list InfoRow) (e : exn) :
  names_of (conn (self st)) catalog_query = Ok (before ++ t :: later) ->
  (forall t', In t' before ->
              table_info_of (conn (self st)) (pragma_query t') = Ok (schema t')) ->
  table_info_of (conn (self st)) (pragma_query t) = Raise e ->
  format_tables_info st =
    (Raise e,
     after st (DbExecute catalog_query
               :: map (fun t => DbExecute (pragma_query t)) (before ++ [t]))).
Proof.
  intros Hnames Hinfo Hfail.
  destruct (on_cursor_inv _ _ _ Hnames) as (cursor & Hcursor & Hnames'); [discriminate |].
  assert (Hinfo' : forall t', In t' before ->
                     yields_table_info cursor (pragma_query t') = Ok (schema t')).
  { intros t' Ht'. specialize (Hinfo t' Ht'). unfold table_info_of in Hinfo.
    now rewrite (on_cursor_open _ _ cursor Hcursor) in Hinfo. }
  unfold table_info_of in Hfail. rewrite (on_cursor_open _ _ cursor Hcursor) in Hfail.
  rewrite format_tables_info_loop, run_bind, get_cursor_run, Hcursor.
  rewrite run_bind, (table_names_run st cursor Hcursor), Hnames'.
  rewrite run_bind, for_each_app, run_bind.
  rewrite (table_loop_run cursor schema before Hinfo').
  cbn [for_each]. rewrite run_bind, table_step_run, Hfail.
  rewrite !after_after. now rewrite map_app.
Qed.

Lemma format_tables_info_table_failure_witness :
  format_tables_info (Stub.state_of Stub.unreachable Stub.half_broken_db) =
    (Raise (DatabaseError "disk I/O error"),
     after (Stub.state_of Stub.unreachable Stub.half_broken_db)
       (DbExecute catalog_query
        :: map (fun t => DbExecute (pragma_query t)) (["users"] ++ ["orders"]))).
Proof.
  apply (format_tables_info_table_failure
           (Stub.state_of Stub.unreachable Stub.half_broken_db)
           ["users"] ["items"] "orders" (fun _ => Stub.users_rows 1)).
  - reflexivity.
  - intros t [<- | []]. reflexivity.
  - reflexivity.
Defined.

(** X8.  The schema block reads the description map only at the
    reported tables and, there, at the names of their columns: two
    objects on the same connection whose maps agree on these give the
    same block.  So [None] and the empty map are the same, and
    descriptions of tables or columns that do not exist are ignored. *)
Theorem format_tables_info_reads_descriptions (st1 st2 : State) (names : list string)
    (schema : string -> list InfoRow) :
  conn (self st1) = conn (self st2) ->
  names_of (conn (self st1)) catalog_query = Ok names ->
  (forall t, In t names ->
             table_info_of (conn (self st1)) (pragma_query t) = Ok (schema t)) ->
  (forall t c, In t names -> In c (TableInfo.columns (TableInfo.from_rows (schema t))) ->
     default ∅ (descriptions_of (self st1) !! t) !! ColumnInfo.name c
     = default ∅ (descriptions_of (self st2) !! t) !! ColumnInfo.name c) ->
  fst (format_tables_info st1) = fst (format_tables_info st2).
Proof.
  intros Hconn Hnames Hinfo Hdescs.
  rewrite (format_tables_info_run st1 names schema Hnames Hinfo).
  rewrite Hconn in Hnames, Hinfo.
  rewrite (format_tables_info_run st2 names schema Hnames Hinfo).
  cbn [fst]. do 4 f_equal. apply map_ext_in. intros t Ht.
  unfold table_block. do 3 f_equal. apply table_format_ext. intros c Hc.
  now apply Hdescs.
Qed.

Lemma format_tables_info_reads_descriptions_witness :
  fst (format_tables_info (new Stub.unreachable (Stub.users_db 0) None None None))
  = fst (format_tables_info
           (new Stub.unreachable (Stub.users_db 0)
                (Some {[ "users" := {[ "email" := "the address" ]};
                         "orders" := {[ "id" := "the order" ]} ]})
                None None)).
Proof.
  apply (format_tables_info_reads_descriptions _ _ ["users"] (fun _ => Stub.users_rows 0)).
  - reflexivity.
  - reflexivity.
  - intros t [<- | []]. reflexivity.
  - intros t c [<- | []] [<- | [<- | []]]; vm_compute; reflexivity.
Defined.

End more_schema_block.

(** ** More on the prompt *)

Section more_prompt.

Import PyStr SQlite.

Lemma split_single_line (s : string) : Forall single_line (split nl s).
Proof.
  induction s as [|c s IH]; [repeat constructor |].
  cbn [split]. destruct (Ascii.eqb c nl) eqn:Hc.
  - constructor; [reflexivity | exact IH].
  - pose proof (split_not_nil nl s) as Hne.
    destruct (split nl s) as [|piece pieces]; [contradiction |].
    inversion IH as [|? ? Hpiece Hpieces]; subst.
    constructor; [| exact Hpieces]. apply single_line_cons. auto.
Qed.

Lemma lines_app_single (a b : string) :
  single_line a ->
  lines (a +:+ b) = match lines b with
                    | l :: ls => (a +:+ l) :: ls
                    | [] => []
                    end.
Proof.
  unfold lines. pose proof (split_not_nil nl b) as Hne.
  induction a as [|c a IH]; intros Ha.
  - change ("" +:+ b) with b. destruct (split nl b); [contradiction | reflexivity].
  - apply single_line_cons in Ha as [Hc Ha]. rewrite append_cons.
    rewrite split_cons_other by exact Hc. rewrite (IH Ha).
    destruct (split nl b); [contradiction | reflexivity].
Qed.

(** The lines of the text [make_prompt] hands to [dedent]. *)
Lemma template_lines (tables_info q : string) :
  single_line q ->
  lines (NL +:+ sp12 +:+ tables_info +:+ NL
         +:+ sp12 +:+ "# " +:+ q +:+ NL
         +:+ sp12 +:+ "SELECT *" +:+ NL
         +:+ sp12)
  = "" :: match lines tables_info with
          | l :: ls => (sp12 +:+ l) :: ls
          | [] => []
          end
       ++ [sp12 +:+ "# " +:+ q; sp12 +:+ "SELECT *"; sp12].
Proof.
  intros Hq. change (NL +:+ ?x) with (String nl x) at 1.
  unfold lines at 1. rewrite split_cons_nl. f_equal.
  rewrite <- (append_assoc sp12 tables_info). rewrite split_app_nl.
  fold (lines (sp12 +:+ tables_info)). rewrite lines_app_single by reflexivity.
  f_equal.
  rewrite <- (append_assoc "# " q), <- (append_assoc sp12 ("# " +:+ q)).
  rewrite split_app_nl.
  fold (lines (sp12 +:+ "# " +:+ q)).
  rewrite (lines_single_line (sp12 +:+ "# " +:+ q))
    by (repeat apply single_line_app; try reflexivity; exact Hq).
  reflexivity.
Qed.

(** What [make_prompt] returns and sends for a question without braces
    when the database answers. *)
Lemma make_prompt_run (st : State) (q : string) (names : list string)
    (schema : string -> list InfoRow) :
  brace_free q = true ->
  names_of (conn (self st)) catalog_query = Ok names ->
  (forall t, In t names ->
             table_info_of (conn (self st)) (pragma_query t) = Ok (schema t)) ->
  make_prompt q st =
    (Ok (dedent
           (NL +:+ sp12
            +:+ replace nl (NL +:+ "# ")
                  (join NL (concat (map (fun t => table_block (descriptions_of (self st))
                                                    t (schema t)) names)))
            +:+ NL
            +:+ sp12 +:+ "# " +:+ q +:+ NL
            +:+ sp12 +:+ "SELECT *" +:+ NL
            +:+ sp12)),
     after st (DbExecute catalog_query :: map (fun t => DbExecute (pragma_query t)) names)).
Proof.
  intros Hq Hnames Hinfo. unfold make_prompt.
  rewrite (str_format_plain q _ Hq), bind_lift_ok, run_bind.
  now rewrite (format_tables_info_run st names schema Hnames Hinfo).
Qed.

(** X9.  On a database without tables, a question of one line and
    without braces gives the prompt of two empty lines, the question as a
    comment, and the line [SELECT *]: [dedent] removes the indentation of
    the source. *)
Theorem make_prompt_without_tables (st : State) (q : string) :
  brace_free q = true -> single_line q ->
  names_of (conn (self st)) catalog_query = Ok [] ->
  fst (make_prompt q st) = Ok (join NL [""; ""; "# " +:+ q; "SELECT *"; ""]).
Proof.
  intros Hq Hline Hnames.
  rewrite (make_prompt_run st q [] (fun _ => []) Hq Hnames) by (intros t []).
  cbn [fst map concat]. unfold dedent.
  change (replace nl (NL +:+ "# ") (join NL [])) with "".
  rewrite (template_lines "" q Hline).
  reflexivity.
Qed.

Lemma lines_blocks_cons (descs : gmap string (gmap string string))
    (schema : string -> list InfoRow) (t : string) (names : list string) :
  exists others,
    lines (join NL (concat (map (fun t => table_block descs t (schema t)) (t :: names))))
    = "" :: others
    /\ others <> [] /\ Forall single_line others.
Proof.
  cbn [map concat]. unfold table_block at 1. cbn [app].
  rewrite join_cons2. unfold lines. rewrite split_app_nl.
  eexists. split; [reflexivity |]. split.
  - apply split_not_nil.
  - apply split_single_line.
Qed.

Lemma normalize_marked (x : string) : normalize_line ("# " +:+ x) = "# " +:+ x.
Proof. reflexivity. Qed.

Lemma indents_app (a b : list string) : indents (a ++ b) = indents a ++ indents b.
Proof. unfold indents. now rewrite List.filter_app, map_app. Qed.

Lemma indents_marked (others : list string) :
  indents (map (fun l => "# " +:+ l) others) = map (fun _ => "") others.
Proof.
  induction others as [|x others IH]; [reflexivity |].
  cbn [map]. change (indents (?a :: ?l)) with (indents [a] ++ indents l).
  now rewrite IH.
Qed.

Lemma fold_margin_empty (l : list string) :
  fold_left margin_step l (Some "") = Some "".
Proof.
  induction l as [|x l IH]; [reflexivity |].
  cbn [fold_left]. replace (margin_step (Some "") x) with (Some ""); [exact IH |].
  destruct x; reflexivity.
Qed.

(** X10.  On a database with a table, [dedent] finds lines without
    indentation (the schema block) and removes nothing: for a question of
    one line and without braces the prompt is two empty lines, the marked
    lines of the schema block, and then the question and [SELECT *] with
    the twelve spaces of the source in front. *)
Theorem make_prompt_with_tables (st : State) (q : string) (names : list string)
    (schema : string -> list InfoRow) :
  brace_free q = true -> single_line q ->
  names <> [] ->
  names_of (conn (self st)) catalog_query = Ok names ->
  (forall t, In t names ->
             table_info_of (conn (self st)) (pragma_query t) = Ok (schema t)) ->
  exists block,
    fst (make_prompt q st)
    = Ok (join NL ([""; ""] ++ block
                   ++ [sp12 +:+ "# " +:+ q; sp12 +:+ "SELECT *"; ""]))
    /\ block <> []
    /\ Forall (fun l => startswith "# " l = true /\ single_line l) block.
Proof.
  intros Hq Hline Hne Hnames Hinfo.
  rewrite (make_prompt_run st q names schema Hq Hnames Hinfo). cbn [fst].
  destruct names as [|t names]; [contradiction |].
  destruct (lines_blocks_cons (descriptions_of (self st)) schema t names)
    as (others & Hlines & Hothers & Hsingle).
  exists (map (fun l => "# " +:+ l) others). split; [| split].
  - f_equal. unfold dedent. rewrite (template_lines _ q Hline).
    rewrite lines_replace, Hlines.
    change (sp12 +:+ "") with sp12. cbn [app map]. rewrite map_app, map_map.
    rewrite (map_ext _ (fun l => "# " +:+ l) normalize_marked).
    change (normalize_line "") with "". change (normalize_line sp12) with "".
    change (map normalize_line [sp12 +:+ "# " +:+ q; sp12 +:+ "SELECT *"; sp12])
      with [sp12 +:+ "# " +:+ q; sp12 +:+ "SELECT *"; ""].
    change (indents ("" :: "" :: ?l)) with (indents l).
    rewrite indents_app, indents_marked.
    destruct others as [|x others]; [contradiction |].
    cbn [map app fold_left]. change (margin_step None "") with (Some "").
    now rewrite fold_margin_empty.
  - destruct others; [contradiction | discriminate].
  - apply Forall_map. eapply Forall_impl; [exact Hsingle |].
    intros l Hl. split; [apply startswith_marker |].
    apply single_line_app; [reflexivity | exact Hl].
Qed.

Lemma make_prompt_with_tables_witness :
  exists block,
    fst (make_prompt Stub.question Stub.users_state)
    = Ok (join NL ([""; ""] ++ block
                   ++ [sp12 +:+ "# " +:+ Stub.question; sp12 +:+ "SELECT *"; ""]))
    /\ block <> []
    /\ Forall (fun l => startswith "# " l = true /\ single_line l) block.
Proof.
  apply (make_prompt_with_tables Stub.users_state Stub.question ["users"]
           (fun _ => Stub.users_rows 0)).
  - reflexivity.
  - reflexivity.
  - discriminate.
  - reflexivity.
  - intros t [<- | []]. reflexivity.
Defined.

Lemma make_prompt_without_tables_witness :
  fst (make_prompt Stub.question (Stub.state_of Stub.unreachable Stub.empty_db))
  = Ok (join NL [""; ""; "# " +:+ Stub.question; "SELECT *"; ""]).
Proof.
  apply (make_prompt_without_tables (Stub.state_of Stub.unreachable Stub.empty_db)
           Stub.question); reflexivity.
Defined.

End more_prompt.

(** ** More on the remote calls and the final statement *)

Section more_calls.

Import PyStr SQlite.

Variable world : World.

(** X11.  Whatever the endpoint answers, [_translate] calls it once and
    sends nothing to the database.  The prompt of the request has every
    line of the draft as a comment, then an empty comment, the
    instruction as a comment, an empty line and [SELECT *]; the sampling
    parameters are the fixed ones. *)
Theorem translate_request_lines (sql : string) (st : State) :
  exists req,
    snd (_translate world sql st) = after st [CompletionCall req]
    /\ lines (prompt req)
       = map (fun line => "# " +:+ line) (lines sql)
         ++ ["# "; "# The above SQL can be rewritten as follows in SQLite"; ""; "SELECT *"]
    /\ model req = "code-davinci-002" /\ max_tokens req = 150%Z
    /\ stop req = ["#"; ";"].
Proof.
  exists (translation_request sql). split; [now rewrite translate_run |].
  split; [| repeat split].
  unfold translation_request, completion_request. cbn [prompt].
  unfold lines. rewrite split_app_nl.
  change (split nl (NL +:+ "SELECT *")) with [""; "SELECT *"].
  rewrite !map_app. cbn [map].
  fold (lines (join NL ((map (fun line => "# " +:+ line) (split nl sql) ++ ["# " +:+ ""])
                        ++ ["# " +:+ "The above SQL can be rewritten as follows in SQLite"]))).
  rewrite lines_join.
  - rewrite <- !app_assoc. reflexivity.
  - intros H. apply app_eq_nil in H as [_ H]. discriminate H.
  - repeat apply Forall_app_2; try (repeat constructor; reflexivity).
    apply Forall_map. eapply Forall_impl; [apply split_single_line |].
    intros l Hl. apply single_line_app; [reflexivity | exact Hl].
Qed.

(** What [build_query] returns and sends once the draft is made. *)
Lemma build_query_run (query p : string) (args : list string)
    (kwargs : list (string * string)) (st st1 : State)
    (res : ChatResponse) (c : ChatChoice) (others : list ChatChoice) :
  make_prompt query st = (Ok p, st1) ->
  repeated_keyword kwargs = None ->
  ChatCompletion_create world (chat_request p args kwargs) = Ok res ->
  chat_choices res = c :: others ->
  build_query world query args kwargs st =
    (match Completion_create world (translation_request ("SELECT *" +:+ message_content c)) with
     | Ok res2 =>
         match first_choice (choices res2) with
         | Ok choice => Ok ("SELECT *" +:+ NL +:+ text choice)
         | Raise e => Raise e
         | Beyond => Beyond
         end
     | Raise e => Raise e
     | Beyond => Beyond
     end,
     after st1 [ChatCall (chat_request p args kwargs);
                CompletionCall (translation_request ("SELECT *" +:+ message_content c))]).
Proof.
  intros Hprompt Hkw Hchat Hchoices. unfold build_query.
  rewrite run_bind, (build_query_1_run world query p args kwargs st st1 Hprompt Hkw).
  rewrite Hchat, Hchoices. cbn [first_choice].
  now rewrite translate_run, after_after.
Qed.

(** X12.  When the chat endpoint answers without a choice,
    [build_query] raises [IndexError] after that one call; the completion
    endpoint is not called. *)
Theorem build_query_no_choice (query p : string) (args : list string)
    (kwargs : list (string * string)) (st st1 : State) (res : ChatResponse) :
  make_prompt query st = (Ok p, st1) ->
  repeated_keyword kwargs = None ->
  ChatCompletion_create world (chat_request p args kwargs) = Ok res ->
  chat_choices res = [] ->
  build_query world query args kwargs st =
    (Raise (IndexError "list index out of range"),
     after st1 [ChatCall (chat_request p args kwargs)]).
Proof.
  intros Hprompt Hkw Hchat Hchoices. unfold build_query.
  rewrite run_bind, (build_query_1_run world query p args kwargs st st1 Hprompt Hkw).
  now rewrite Hchat, Hchoices.
Qed.

(** X13.  When both endpoints answer, [build_query] returns [SELECT *],
    a newline and the text of the completion endpoint.  The answer of the
    chat endpoint is not part of the result: it is the draft the second
    request is made from.  The two calls are made in this order, once
    each, and nothing is sent to the database after the prompt is made. *)
Theorem build_query_two_stages (query p : string) (args : list string)
    (kwargs : list (string * string)) (st st1 : State)
    (res : ChatResponse) (c : ChatChoice) (others : list ChatChoice)
    (res2 : CompletionResponse) (c2 : CompletionChoice) (others2 : list CompletionChoice) :
  make_prompt query st = (Ok p, st1) ->
  repeated_keyword kwargs = None ->
  ChatCompletion_create world (chat_request p args kwargs) = Ok res ->
  chat_choices res = c :: others ->
  Completion_create world (translation_request ("SELECT *" +:+ message_content c)) = Ok res2 ->
  choices res2 = c2 :: others2 ->
  build_query world query args kwargs st =
    (Ok ("SELECT *" +:+ NL +:+ text c2),
     after st1 [ChatCall (chat_request p args kwargs);
                CompletionCall (translation_request ("SELECT *" +:+ message_content c))]).
Proof.
  intros Hprompt Hkw Hchat Hchoices Hcompletion Hchoices2.
  rewrite (build_query_run query p args kwargs st st1 res c others Hprompt Hkw Hchat Hchoices).
  now rewrite Hcompletion, Hchoices2.
Qed.

(** X14.  When both endpoints answer, [execute] sends the text of
    [build_query] to the database as it is, once, after the two remote
    calls, and returns what the database gives for it: its rows, or its
    error, which is not caught. *)
Theorem execute_runs_final_statement (query p : string) (args : list string)
    (kwargs : list (string * string)) (st st1 : State)
    (res : ChatResponse) (c : ChatChoice) (others : list ChatChoice)
    (res2 : CompletionResponse) (c2 : CompletionChoice) (others2 : list CompletionChoice) :
  make_prompt query st = (Ok p, st1) ->
  repeated_keyword kwargs = None ->
  ChatCompletion_create world (chat_request p args kwargs) = Ok res ->
  chat_choices res = c :: others ->
  Completion_create world (translation_request ("SELECT *" +:+ message_content c)) = Ok res2 ->
  choices res2 = c2 :: others2 ->
  execute world query args kwargs st =
    (rows_of (conn (self st)) ("SELECT *" +:+ NL +:+ text c2),
     after st1 [ChatCall (chat_request p args kwargs);
                CompletionCall (translation_request ("SELECT *" +:+ message_content c));
                DbExecute ("SELECT *" +:+ NL +:+ text c2)]).
Proof.
  intros Hprompt Hkw Hchat Hchoices Hcompletion Hchoices2.
  destruct (make_prompt_cursor _ _ _ _ Hprompt) as [cursor Hcursor].
  unfold rows_of. rewrite (on_cursor_open _ _ cursor Hcursor).
  unfold execute. rewrite run_bind, get_cursor_run, Hcursor.
  rewrite run_bind.
  rewrite (build_query_run query p args kwargs st st1 res c others Hprompt Hkw Hchat Hchoices).
  rewrite Hcompletion, Hchoices2. cbn [first_choice].
  unfold execute_rows. cbv [log lift mbind M_bind]. unfold after. cbn [self openai_api_key trace].
  now rewrite <- app_assoc.
Qed.

Lemma format_tables_info_catalog_failure (st : State) (e : exn) :
  names_of (conn (self st)) catalog_query = Raise e ->
  format_tables_info st = (Raise e, after st [DbExecute catalog_query]).
Proof.
  intros Hnames.
  destruct (on_cursor_inv _ _ _ Hnames) as (cursor & Hcursor & Hnames'); [discriminate |].
  rewrite format_tables_info_loop, run_bind, get_cursor_run, Hcursor.
  now rewrite run_bind, (table_names_run st cursor Hcursor), Hnames'.
Qed.

(** X15.  When the catalog query fails, [execute] raises the error of
    the database after that one statement: no endpoint is called and
    nothing else is sent to the database. *)
Theorem execute_database_failure (query q : string) (args : list string)
    (kwargs : list (string * string)) (st : State) (e : exn) :
  str_format query [NL; NL +:+ "# "] = Ok q ->
  names_of (conn (self st)) catalog_query = Raise e ->
  execute world query args kwargs st = (Raise e, after st [DbExecute catalog_query]).
Proof.
  intros Hformat Hnames.
  destruct (on_cursor_inv _ _ _ Hnames) as (cursor & Hcursor & _); [discriminate |].
  unfold execute, build_query, _build_query, make_prompt.
  rewrite run_bind, get_cursor_run, Hcursor.
  rewrite Hformat, bind_lift_ok. rewrite !run_bind.
  now rewrite (format_tables_info_catalog_failure st e Hnames).
Qed.

(** X16.  When [str.format] rejects the question, [build_query] raises
    that error before anything else happens: no statement is sent to the
    database and no endpoint is called.  [execute] asks the connection
    for a cursor first: when the connection gives one, [execute] raises
    the error of [str.format], again with nothing sent; when it gives
    none, [execute] raises the error of the connection instead. *)
Theorem execute_format_failure (query : string) (args : list string)
    (kwargs : list (string * string)) (st : State) (e : exn) :
  str_format query [NL; NL +:+ "# "] = Raise e ->
  build_query world query args kwargs st = (Raise e, st)
  /\ (forall cursor, conn_cursor (conn (self st)) = Ok cursor ->
                     execute world query args kwargs st = (Raise e, st))
  /\ (forall e', conn_cursor (conn (self st)) = Raise e' ->
                 execute world query args kwargs st = (Raise e', st)).
Proof.
  intros Hformat.
  assert (Hbuild : build_query world query args kwargs st = (Raise e, st)).
  { unfold build_query, _build_query, make_prompt. rewrite Hformat. reflexivity. }
  split; [exact Hbuild | split].
  - intros cursor Hcursor. unfold execute.
    rewrite run_bind, get_cursor_run, Hcursor. now rewrite run_bind, Hbuild.
  - intros e' Hcursor. unfold execute.
    now rewrite run_bind, get_cursor_run, Hcursor.
Qed.

(** X17.  When the caller passes [model] or [messages] among the keyword
    arguments, the call of the chat endpoint is a [TypeError]: [execute]
    raises it after the prompt is made, so the schema has been read, and
    no endpoint is called and no query is run. *)
Theorem execute_repeated_keyword (query p k : string) (args : list string)
    (kwargs : list (string * string)) (st st1 : State) :
  make_prompt query st = (Ok p, st1) ->
  repeated_keyword kwargs = Some k ->
  exists msg, execute world query args kwargs st = (Raise (TypeError msg), st1).
Proof.
  intros Hprompt Hkw.
  destruct (make_prompt_cursor _ _ _ _ Hprompt) as [cursor Hcursor].
  unfold execute, build_query, _build_query.
  rewrite run_bind, get_cursor_run, Hcursor.
  rewrite !run_bind, Hprompt, Hkw. eexists. reflexivity.
Qed.

(** X18.  The constructor sets the process-wide key, whatever it was
    before: to the [api_key] argument when that is a non-empty string,
    and otherwise to the environment variable [OPENAI_API_KEY], also
    when that is not set.  The fields of the object are the arguments as
    given, and nothing is sent anywhere. *)
Theorem new_sets_api_key (conn0 : Connection)
    (cd : option (gmap string (gmap string string)))
    (key previous : option string) :
  (forall k, key = Some k -> k <> "" ->
             openai_api_key (new world conn0 cd key previous) = Some k)
  /\ (key = None \/ key = Some "" ->
      openai_api_key (new world conn0 cd key previous)
      = os_environ world !! "OPENAI_API_KEY")
  /\ self (new world conn0 cd key previous)
     = {| conn := conn0; column_descriptions := cd; api_key := key |}
  /\ trace (new world conn0 cd key previous) = [].
Proof.
  repeat split.
  - intros k -> Hk.
    change (openai_api_key (new world conn0 cd (Some k) previous))
      with (or_str (Some k) (os_environ world !! "OPENAI_API_KEY")).
    unfold or_str, str_truth.
    destruct (String.eqb_spec k ""); [contradiction | reflexivity].
  - intros [-> | ->]; reflexivity.
Qed.

(** X19.  On a connection that gives no cursor, every operation that
    needs one raises the error of the connection and sends nothing:
    [table_names], [format_tables_info], [make_prompt] once [str.format]
    has accepted the question, and [execute], which asks for its cursor
    before it looks at the question. *)
Theorem closed_connection (query : string) (args : list string)
    (kwargs : list (string * string)) (st : State) (e : exn) :
  conn_cursor (conn (self st)) = Raise e ->
  table_names st = (Raise e, st)
  /\ format_tables_info st = (Raise e, st)
  /\ (forall q, str_format query [NL; NL +:+ "# "] = Ok q ->
                make_prompt query st = (Raise e, st))
  /\ execute world query args kwargs st = (Raise e, st).
Proof.
  intros Hcursor.
  assert (Htables : format_tables_info st = (Raise e, st))
    by now rewrite format_tables_info_loop, run_bind, get_cursor_run, Hcursor.
  repeat split.
  - unfold table_names. now rewrite run_bind, get_cursor_run, Hcursor.
  - exact Htables.
  - intros q Hformat. unfold make_prompt.
    now rewrite Hformat, bind_lift_ok, run_bind, Htables.
  - unfold execute. now rewrite run_bind, get_cursor_run, Hcursor.
Qed.

End more_calls.

(** ** The further properties on stub collaborators *)

Section more_on_stubs.

Import PyStr SQlite.

Lemma build_query_no_choice_witness :
  exists p st1,
    build_query Stub.no_choice Stub.question [] [] (Stub.state_of Stub.no_choice (Stub.users_db 0))
    = (Raise (IndexError "list index out of range"),
       after st1 [ChatCall (chat_request p [] [])]).
Proof.
  do 2 eexists.
  eapply build_query_no_choice
    with (world := Stub.no_choice) (query := Stub.question)
         (st := Stub.state_of Stub.no_choice (Stub.users_db 0)).
  - vm_compute. reflexivity.
  - reflexivity.
  - reflexivity.
  - reflexivity.
Defined.

Lemma build_query_two_stages_witness :
  fst (build_query (Stub.answering " id FROM users" " FROM users") Stub.question [] []
         (Stub.state_of (Stub.answering " id FROM users" " FROM users") (Stub.users_db 0)))
  = Ok ("SELECT *" +:+ NL +:+ " FROM users").
Proof.
  erewrite build_query_two_stages
    with (world := Stub.answering " id FROM users" " FROM users"); cycle 1.
  - vm_compute. reflexivity.
  - reflexivity.
  - reflexivity.
  - reflexivity.
  - reflexivity.
  - reflexivity.
  - reflexivity.
Defined.

Lemma execute_runs_final_statement_witness :
  fst (execute (Stub.answering " id FROM users" " FROM users") Stub.question [] []
         (Stub.state_of (Stub.answering " id FROM users" " FROM users") Stub.counting_db))
  = Ok [[SqlInteger 3]].
Proof.
  erewrite execute_runs_final_statement
    with (world := Stub.answering " id FROM users" " FROM users"); cycle 1.
  - vm_compute. reflexivity.
  - reflexivity.
  - reflexivity.
  - reflexivity.
  - reflexivity.
  - reflexivity.
  - reflexivity.
Defined.

Lemma execute_database_failure_witness :
  execute Stub.unreachable Stub.question [] [] (Stub.state_of Stub.unreachable Stub.broken_db)
  = (Raise (DatabaseError "database is locked"),
     after (Stub.state_of Stub.unreachable Stub.broken_db) [DbExecute catalog_query]).
Proof.
  apply (execute_database_failure Stub.unreachable Stub.question Stub.question).
  - reflexivity.
  - reflexivity.
Defined.

Lemma execute_format_failure_witness :
  build_query Stub.unreachable "users with {id} set" [] [] Stub.users_state
  = (Raise (KeyError "id"), Stub.users_state)
  /\ execute Stub.unreachable "users with {id} set" [] [] Stub.users_state
     = (Raise (KeyError "id"), Stub.users_state)
  /\ execute Stub.unreachable "users with {id} set" [] []
             (Stub.state_of Stub.unreachable Stub.closed_db)
     = (Raise (DatabaseError "Cannot operate on a closed database."),
        Stub.state_of Stub.unreachable Stub.closed_db).
Proof.
  split; [| split].
  - apply (execute_format_failure Stub.unreachable "users with {id} set" [] []
             Stub.users_state (KeyError "id")). reflexivity.
  - eapply (proj1 (proj2 (execute_format_failure Stub.unreachable "users with {id} set"
                            [] [] Stub.users_state (KeyError "id") eq_refl))).
    reflexivity.
  - eapply (proj2 (proj2 (execute_format_failure Stub.unreachable "users with {id} set"
                            [] [] (Stub.state_of Stub.unreachable Stub.closed_db)
                            (KeyError "id") eq_refl))).
    reflexivity.
Defined.

Lemma execute_repeated_keyword_witness :
  exists msg st1,
    execute (Stub.answering "" "") Stub.question [] [("model", "gpt-4")] Stub.users_state
    = (Raise (TypeError msg), st1).
Proof.
  edestruct execute_repeated_keyword
    with (world := Stub.answering "" "") (query := Stub.question)
         (args := @nil string) (kwargs := [("model", "gpt-4")]) (st := Stub.users_state)
    as [msg Hrun].
  - vm_compute. reflexivity.
  - reflexivity.
  - exists msg. eexists. exact Hrun.
Defined.

Lemma new_sets_api_key_witness :
  openai_api_key (new Stub.with_environment_key Stub.empty_db None (Some "sk-arg")
                      (Some "sk-old")) = Some "sk-arg"
  /\ openai_api_key (new Stub.with_environment_key Stub.empty_db None None (Some "sk-old"))
     = Some "sk-env"
  /\ openai_api_key (new Stub.unreachable Stub.empty_db None (Some "") (Some "sk-old")) = None.
Proof.
  split; [| split].
  - apply (proj1 (new_sets_api_key Stub.with_environment_key Stub.empty_db None
                    (Some "sk-arg") (Some "sk-old")) "sk-arg");
      [reflexivity | discriminate].
  - rewrite (proj1 (proj2 (new_sets_api_key Stub.with_environment_key Stub.empty_db None
                             None (Some "sk-old")))); [reflexivity | now left].
  - rewrite (proj1 (proj2 (new_sets_api_key Stub.unreachable Stub.empty_db None
                             (Some "") (Some "sk-old")))); [reflexivity | now right].
Defined.

Lemma closed_connection_witness :
  format_tables_info (Stub.state_of Stub.unreachable Stub.closed_db)
  = (Raise (DatabaseError "Cannot operate on a closed database."),
     Stub.state_of Stub.unreachable Stub.closed_db)
  /\ execute Stub.unreachable Stub.question [] []
             (Stub.state_of Stub.unreachable Stub.closed_db)
     = (Raise (DatabaseError "Cannot operate on a closed database."),
        Stub.state_of Stub.unreachable Stub.closed_db).
Proof.
  destruct (closed_connection Stub.unreachable Stub.question [] []
              (Stub.state_of Stub.unreachable Stub.closed_db)
              (DatabaseError "Cannot operate on a closed database.") eq_refl)
    as (_ & Htables & _ & Hexecute).
  split; [exact Htables | exact Hexecute].
Defined.

End more_on_stubs.
